(** * English-words-game: the level session, scoring and progression

    A shallow embedding of the React component [App] (src/App.tsx), of the
    two services it imports (services/geminiService, services/sheetsService)
    and of utils.ts / types.ts, followed by the properties of the session
    state machine: preparation of the questions, answering, scoring, the
    unlocking of levels and the saving of the record.

    Conventions of the embedding
    - JavaScript numbers that hold array indexes, counts and level numbers
      are [nat]; timestamps ([Date.now()]) are [Z]; the accuracy, which the
      source computes with a division, is an IEEE binary64 [float], the type
      of a JavaScript number.
    - A React event handler is a function of the state it closed over at
      render time (its snapshot) into a computation of the monad [M], whose
      store holds the pending React state and the console.  Reads go to the
      snapshot, [setX] calls go to the store: a handler never sees its own
      updates.
    - [await] is sequencing in [M]; a rejected promise is a [Throw].  A
      handler runs to completion before the next event: while a level loads
      the interface shows only the spinner.
    - The time of an event is what [Date.now()] returns when its handler
      reads it: [startLevel] reads it once the words are prepared, after
      its awaits; [finishLevel] reads it as soon as the last option is
      clicked.  How long an awaited call takes leaves no other trace in the
      state.
    - What lies outside the repository is a parameter: the replies of the
      generative model ([GenAI]), the random numbers and the sort of the
      JavaScript engine ([Runtime]).  The sheets service is a record of
      calls, with the class of the repository as its instance.

    The file has three parts: the embedding of the source, the notions the
    properties are stated with, and the properties. *)

From Stdlib Require Import List String ZArith Lia Bool Arith PeanoNat.
From Stdlib Require Import Permutation DecimalString.
From Stdlib Require Import Floats.PrimFloat Uint63.
Import ListNotations.

Local Open Scope string_scope.
Local Open Scope list_scope.
Local Open Scope nat_scope.

(** ** types.ts *)

Record Word := mkWord {
  id : nat;
  word : string;
  translation : string;
  options : list string;
  correctAnswer : string
}.

(** [GameRecord]: the source stores [startTime], [endTime] and [playerNo] as
    locale renderings of the timestamps below and [accuracy] as
    [accuracy.toFixed(2) + "%"]; the record keeps the values that are
    rendered. *)
Record GameRecord := mkGameRecord {
  playerNo : Z;
  rec_playerId : string;
  rec_startTime : Z;
  rec_endTime : Z;
  duration : string;
  maxLevel : nat;
  totalWords : nat;
  rec_correctCount : nat;
  rec_accuracy : float
}.

Inductive GameState := LOBBY | PLAYING | RESULT | SUMMARY.

(** An element of the [any[]] that the word sources return. *)
Record RawWord := mkRaw { raw_word : string; raw_translation : string }.

(** An element of [userAnswers]. *)
Record UserAnswer := mkAnswer {
  wordId : nat;
  selected : string;
  isCorrect : bool
}.

(** ** utils.ts *)

Definition toString (z : Z) : string := NilZero.string_of_int (Z.to_int z).

Definition padStart2 (s : string) : string :=
  match String.length s with
  | 0 => "00"
  | 1 => ("0" ++ s)%string
  | _ => s
  end.

(** The numbers of [formatDuration] are binary64; on integers they are
    computed here in [Z], which is what the code computes for a duration
    that is a safe integer, [|ms| < 2^53] (a difference of two [Date.now()]
    readings is one): [ms / 1000] is then below [2^44], where binary64
    rounds by less than a thousandth, so that [Math.floor(ms / 1000)] is the
    integer quotient; the same holds of [seconds / 60], and [%] is exact.
    From [2^53] on the code rounds and the two part.  [Math.floor(a / b)] is
    [Z.div] for a positive [b]; [%] is the truncated remainder [Z.rem]. *)
Definition formatDuration (ms : Z) : string :=
  let seconds := (ms / 1000)%Z in
  let minutes := (seconds / 60)%Z in
  let remainingSeconds := Z.rem seconds 60 in
  (toString minutes ++ ":" ++ padStart2 (toString remainingSeconds))%string.

(** [window.speechSynthesis] as [playWord] uses it: the queue of utterances
    waiting to be spoken (the one being spoken first); [cancel()] removes
    them all and [speak(u)] adds [u] at the end. *)
Record Utterance := mkUtterance {
  utter_text : string;
  utter_lang : string;
  utter_rate : float
}.

Definition SpeechQueue : Type := list Utterance.

Definition speechSynthesis_cancel (q : SpeechQueue) : SpeechQueue := [].

Definition speechSynthesis_speak (u : Utterance) (q : SpeechQueue)
  : SpeechQueue := q ++ [u].

(** [if (!word) return;] leaves on the empty string. *)
Definition playWord (word : string) (q : SpeechQueue) : SpeechQueue :=
  if String.length word =? 0 then q
  else
    let q := speechSynthesis_cancel q in
    let utterance :=
      {| utter_text := word; utter_lang := "en-US";
         utter_rate := 0x1.ccccccccccccdp-1%float (* 0.9 *) |} in
    speechSynthesis_speak utterance q.

(** ** The state of the component and the monad of its handlers *)

(** The [useState] cells of [App]. *)
Record AppState := mkApp {
  gameState : GameState;
  playerId : string;
  currentLevel : nat;
  words : list Word;
  currentIndex : nat;
  userAnswers : list UserAnswer;
  startTime : Z;
  isLoading : bool;
  unlockedLevel : nat
}.

(** [useState] initial values. *)
Definition initialState : AppState :=
  {| gameState := LOBBY; playerId := EmptyString; currentLevel := 1;
     words := []; currentIndex := 0; userAnswers := []; startTime := 0%Z;
     isLoading := false; unlockedLevel := 1 |}.

Inductive JsError :=
| TypeError      (* property read on undefined *)
| ServiceError.  (* a rejected call of an external service, or JSON.parse *)

Inductive ConsoleLine :=
| ConsoleWarn (msg : string)
| ConsoleError (msg : string) (e : JsError)
| ConsoleLog (msg : string) (r : GameRecord).

Record Store := mkStore {
  react : AppState;          (* the pending React state *)
  console : list ConsoleLine;
  clock : Z                  (* what Date.now() returns when the handler
                                reads it *)
}.

Inductive Result (A : Type) :=
| Return (a : A)
| Throw (e : JsError).
Arguments Return {A} a.
Arguments Throw {A} e.

Definition M (A : Type) : Type := Store -> Store * Result A.

Definition ret {A} (a : A) : M A := fun s => (s, Return a).

Definition bind {A B} (m : M A) (k : A -> M B) : M B :=
  fun s =>
    match m s with
    | (s', Return a) => k a s'
    | (s', Throw e) => (s', Throw e)
    end.

Definition throw {A} (e : JsError) : M A := fun s => (s, Throw e).

(** [try { body } catch (error) { handler }] *)
Definition try_catch {A} (body : M A) (handler : JsError -> M A) : M A :=
  fun s =>
    match body s with
    | (s', Throw e) => handler e s'
    | r => r
    end.

(** [try { body } finally { fin }] *)
Definition try_finally {A} (body : M A) (fin : M unit) : M A :=
  fun s =>
    match body s with
    | (s', r) =>
        match fin s' with
        | (s'', Return _) => (s'', r)
        | (s'', Throw e) => (s'', Throw e)
        end
    end.

Declare Scope js_scope.
Delimit Scope js_scope with js.
Notation "x <- m ;; k" := (bind m (fun x => k))
  (at level 61, m at next level, right associativity) : js_scope.
Notation "m ;; k" := (bind m (fun _ => k))
  (at level 61, right associativity) : js_scope.
Local Open Scope js_scope.

Definition setState (f : AppState -> AppState) : M unit :=
  fun s => ({| react := f (react s); console := console s; clock := clock s |},
            Return tt).

(** The state with one cell replaced. *)
Definition with_gameState (g : GameState) (a : AppState) : AppState :=
  mkApp g (playerId a) (currentLevel a) (words a) (currentIndex a)
        (userAnswers a) (startTime a) (isLoading a) (unlockedLevel a).
Definition with_playerId (p : string) (a : AppState) : AppState :=
  mkApp (gameState a) p (currentLevel a) (words a) (currentIndex a)
        (userAnswers a) (startTime a) (isLoading a) (unlockedLevel a).
Definition with_currentLevel (l : nat) (a : AppState) : AppState :=
  mkApp (gameState a) (playerId a) l (words a) (currentIndex a)
        (userAnswers a) (startTime a) (isLoading a) (unlockedLevel a).
Definition with_words (ws : list Word) (a : AppState) : AppState :=
  mkApp (gameState a) (playerId a) (currentLevel a) ws (currentIndex a)
        (userAnswers a) (startTime a) (isLoading a) (unlockedLevel a).
Definition with_currentIndex (i : nat) (a : AppState) : AppState :=
  mkApp (gameState a) (playerId a) (currentLevel a) (words a) i
        (userAnswers a) (startTime a) (isLoading a) (unlockedLevel a).
Definition with_userAnswers (l : list UserAnswer) (a : AppState) : AppState :=
  mkApp (gameState a) (playerId a) (currentLevel a) (words a) (currentIndex a)
        l (startTime a) (isLoading a) (unlockedLevel a).
Definition with_startTime (t : Z) (a : AppState) : AppState :=
  mkApp (gameState a) (playerId a) (currentLevel a) (words a) (currentIndex a)
        (userAnswers a) t (isLoading a) (unlockedLevel a).
Definition with_isLoading (b : bool) (a : AppState) : AppState :=
  mkApp (gameState a) (playerId a) (currentLevel a) (words a) (currentIndex a)
        (userAnswers a) (startTime a) b (unlockedLevel a).
Definition with_unlockedLevel (l : nat) (a : AppState) : AppState :=
  mkApp (gameState a) (playerId a) (currentLevel a) (words a) (currentIndex a)
        (userAnswers a) (startTime a) (isLoading a) l.

(** The setters that [useState] returns; a setter given a function applies it
    to the pending value. *)
Definition setGameState (g : GameState) : M unit :=
  setState (with_gameState g).
Definition setPlayerId (p : string) : M unit :=
  setState (with_playerId p).
Definition setCurrentLevel (f : nat -> nat) : M unit :=
  setState (fun a => with_currentLevel (f (currentLevel a)) a).
Definition setWords (ws : list Word) : M unit :=
  setState (with_words ws).
Definition setCurrentIndex (f : nat -> nat) : M unit :=
  setState (fun a => with_currentIndex (f (currentIndex a)) a).
Definition setUserAnswers (f : list UserAnswer -> list UserAnswer) : M unit :=
  setState (fun a => with_userAnswers (f (userAnswers a)) a).
Definition setStartTime (t : Z) : M unit :=
  setState (with_startTime t).
Definition setIsLoading (b : bool) : M unit :=
  setState (with_isLoading b).
Definition setUnlockedLevel (f : nat -> nat) : M unit :=
  setState (fun a => with_unlockedLevel (f (unlockedLevel a)) a).

Definition Date_now : M Z := fun s => (s, Return (clock s)).

Definition console_emit (l : ConsoleLine) : M unit :=
  fun s => ({| react := react s; console := console s ++ [l];
               clock := clock s |}, Return tt).

(** ** services/sheetsService.ts *)

(** A call of an external service: the lines it writes to the console and
    how its promise settles.  What a service answers may differ from one
    run of a handler to the next: it is indexed by the clock of the run.  A
    service has no access to the state of the component, and the time it
    takes shows in the clock of the run only (the reading [startLevel] takes
    after its awaits). *)
Definition Service (A : Type) : Type := Z -> list ConsoleLine * Result A.

Definition call {A} (c : Service A) : M A :=
  fun s =>
    ({| react := react s; console := console s ++ fst (c (clock s));
        clock := clock s |},
     snd (c (clock s))).

(** The interface of the object [sheetsService] that [App] imports. *)
Record SheetsService := {
  fetchLevelWords : nat -> Service (list RawWord);
  saveRecord : GameRecord -> Service unit
}.

(** [class GoogleSheetsService]: both branches of [fetchLevelWords] return
    the empty array, and [saveRecord] only logs the record. *)
Definition GoogleSheetsService (sheetId : string) : SheetsService :=
  {| fetchLevelWords := fun level _ =>
       if (String.length sheetId =? 0)
       then ([ConsoleWarn "No Google Sheet ID provided. Using mock data."],
             Return [])
       else ([], Return []);
     saveRecord := fun record _ =>
       ([ConsoleLog "Saving record to Google Sheets:" record], Return tt) |}.

(** ** services/geminiService.ts *)

(** What the generative model answers, after [JSON.parse]: the reply is
    outside the repository, so it is an oracle, indexed by the time of the
    call.  [Throw] stands for a rejected request or a reply that does not
    parse.  A reply that parses is taken to have the type the functions
    declare and the [responseSchema] of the request asks for: an array of
    strings for the distractors, an array of word and translation pairs for
    the words.  (A parsed reply of another shape is outside the model: the
    spread [[...distractors, w.translation]] throws on one that is not
    iterable, outside the [try] of [generateDistractors].) *)
Record GenAI := {
  reply_words : Z -> nat -> Result (list RawWord);
  reply_distractors : Z -> string -> string -> Result (list string)
}.

Definition liftResult {A} (r : Result A) : M A := fun s => (s, r).

Definition placeholderDistractors : list string :=
  ["错误选项1"; "错误选项2"; "错误选项3"].

Definition generateDistractors (ai : GenAI) (word translation : string)
  : M (list string) :=
  try_catch
    (now <- Date_now;;
     distractors <- liftResult (reply_distractors ai now word translation);;
     ret distractors)
    (fun error =>
       console_emit (ConsoleError "Error generating distractors:" error);;
       ret placeholderDistractors).

Definition generateLevelWords (ai : GenAI) (level : nat)
  : M (list RawWord) :=
  now <- Date_now;;
  liftResult (reply_words ai now level).

(** ** The JavaScript runtime: [Math.random] and [Array.prototype.sort] *)

(** [math_random t idx k] is the [k]-th number [Math.random()] returns while
    the options of the word at position [idx] are ordered, in the level
    started at time [t].  [array_sort c l] is the engine's
    [Array.prototype.sort] run on [l] with a comparator that ignores its
    arguments and answers [c k] at its [k]-th call; the engine's algorithm
    is not part of the repository. *)
Record Runtime := {
  math_random : Z -> nat -> nat -> float;
  array_sort : (nat -> float) -> list string -> list string
}.

(** ** App.tsx *)

Definition MOCK_WORDS (level : nat) : option (list RawWord) :=
  match level with
  | 1 => Some [ mkRaw "abandon" "放弃";
                mkRaw "ability" "能力";
                mkRaw "abroad" "在国外";
                mkRaw "absolute" "绝对的";
                mkRaw "academic" "学术的";
                mkRaw "accent" "口音";
                mkRaw "accept" "接受";
                mkRaw "access" "接近；进入";
                mkRaw "accident" "事故";
                mkRaw "account" "账户；解释" ]
  | _ => None
  end.

(** A JavaScript number that holds a count. *)
Definition of_nat (n : nat) : float := of_uint63 (Uint63.of_Z (Z.of_nat n)).

(** [userAnswers.filter(a => a.isCorrect).length] *)
Definition correctCountOf (answers : list UserAnswer) : nat :=
  List.length (filter isCorrect answers).

(** [(correctCount / words.length) * 100] *)
Definition accuracyOf (correctCount total : nat) : float :=
  (of_nat correctCount / of_nat total * of_nat 100)%float.

(** [accuracy >= 90] *)
Definition passedOf (accuracy : float) : bool :=
  PrimFloat.leb (of_nat 90) accuracy.

Section App.

Variable sheetsService : SheetsService.
Variable ai : GenAI.
Variable js : Runtime.

(** The callback of [rawWords.slice(0, 50).map(async (w, idx) => ...)]. *)
Definition prepareWord (t : Z) (idx : nat) (w : RawWord) : M Word :=
  distractors <- generateDistractors ai (raw_word w) (raw_translation w);;
  let options :=
    array_sort js (fun k => (math_random js t idx k - 0.5)%float)
               (distractors ++ [raw_translation w]) in
  ret {| id := idx;
         word := raw_word w;
         translation := raw_translation w;
         options := options;
         correctAnswer := raw_translation w |}.

(** [Promise.all(l.map(callback))], the callbacks indexed from [idx], when
    the requests complete in the order of the words.  The order of
    completion is the event loop's; it shows in the order of the console
    lines only ([resumeAll] below takes it as a parameter). *)
Fixpoint prepareFrom (t : Z) (idx : nat) (l : list RawWord)
  : M (list Word) :=
  match l with
  | [] => ret []
  | w :: rest =>
      p <- prepareWord t idx w;;
      ps <- prepareFrom t (S idx) rest;;
      ret (p :: ps)
  end.

(** Step 1 of [startLevel]: fetch words (from Sheets, the mock table or
    Gemini). *)
Definition fetchRawWords (level : nat) : M (list RawWord) :=
  rawWords <- call (fetchLevelWords sheetsService level);;
  if List.length rawWords =? 0
  then match MOCK_WORDS level with
       | Some mock => ret mock
       | None => generateLevelWords ai level
       end
  else ret rawWords.

(** Step 2 of [startLevel]: prepare words with distractors. *)
Definition prepareWords (rawWords : list RawWord) : M (list Word) :=
  t <- Date_now;;
  prepareFrom t 0 (firstn 50 rawWords).

(** [Promise.all] with the order of completion as a parameter: the
    callbacks resume in the order [order] of their positions in [l]; each
    logs if its request failed and orders its options. *)
Fixpoint resumeAll (t : Z) (l : list RawWord) (order : list nat)
  : M (list (nat * Word)) :=
  match order with
  | [] => ret []
  | idx :: rest =>
      match nth_error l idx with
      | Some w =>
          p <- prepareWord t idx w;;
          ps <- resumeAll t l rest;;
          ret ((idx, p) :: ps)
      | None => resumeAll t l rest
      end
  end.

(** The array [Promise.all] resolves to holds the results by position,
    whenever each was obtained. *)
Definition resultsByPosition (n : nat) (done : list (nat * Word))
  : list Word :=
  flat_map
    (fun idx =>
       match find (fun q => fst q =? idx) done with
       | Some q => [snd q]
       | None => []
       end)
    (seq 0 n).

(** Step 2 of [startLevel] when the requests complete in the order
    [order]. *)
Definition prepareWordsIn (order : list nat) (rawWords : list RawWord)
  : M (list Word) :=
  t <- Date_now;;
  done <- resumeAll t (firstn 50 rawWords) order;;
  ret (resultsByPosition (List.length (firstn 50 rawWords)) done).

(** The body of the [try] block of [startLevel]. *)
Definition loadLevel (level : nat) : M unit :=
  rawWords <- fetchRawWords level;;
  preparedWords <- prepareWords rawWords;;
  setWords preparedWords;;
  setCurrentIndex (fun _ => 0);;
  setUserAnswers (fun _ => []);;
  now <- Date_now;;
  setStartTime now;;
  setGameState PLAYING.

Definition startLevel (level : nat) : M unit :=
  setIsLoading true;;
  try_finally
    (try_catch
       (loadLevel level)
       (fun error =>
          console_emit (ConsoleError "Failed to start level:" error)))
    (setIsLoading false).

(** [finishLevel] reads [startTime], [userAnswers], [words],
    [currentLevel], [unlockedLevel] and [playerId] from the render it was
    created in: the snapshot [snap]. *)
Definition finishLevel (snap : AppState) : M unit :=
  endTime <- Date_now;;
  let duration := (endTime - startTime snap)%Z in
  let correctCount := correctCountOf (userAnswers snap) in
  let accuracy := accuracyOf correctCount (List.length (words snap)) in
  let passed := passedOf accuracy in
  (if passed
   then if (currentLevel snap =? unlockedLevel snap)
           && (unlockedLevel snap <? 10)
        then setUnlockedLevel (fun prev => prev + 1)
        else ret tt
   else ret tt);;
  no <- Date_now;;
  let record :=
    {| playerNo := no;
       rec_playerId := playerId snap;
       rec_startTime := startTime snap;
       rec_endTime := endTime;
       duration := formatDuration duration;
       maxLevel := currentLevel snap;
       totalWords := List.length (words snap);
       rec_correctCount := correctCount;
       rec_accuracy := accuracy |} in
  call (saveRecord sheetsService record);;
  setGameState RESULT.

(** [handleAnswer]: [words[currentIndex]] is [undefined] out of range and
    reading [.correctAnswer] of it throws a TypeError, before any state is
    set. *)
Definition handleAnswer (snap : AppState) (selected : string) : M unit :=
  match nth_error (words snap) (currentIndex snap) with
  | None => throw TypeError
  | Some currentWord =>
      let isCorrect := String.eqb selected (correctAnswer currentWord) in
      setUserAnswers
        (fun prev => prev ++ [ {| wordId := id currentWord;
                                  selected := selected;
                                  isCorrect := isCorrect |} ]);;
      if (Z.of_nat (currentIndex snap)
            <? Z.of_nat (List.length (words snap)) - 1)%Z
      then setCurrentIndex (fun prev => prev + 1)
      else finishLevel snap
  end.

(** What [renderResult] derives from the state it renders. *)
Definition renderResult_correctCount (a : AppState) : nat :=
  correctCountOf (userAnswers a).
Definition renderResult_accuracy (a : AppState) : float :=
  accuracyOf (renderResult_correctCount a) (List.length (words a)).
Definition renderResult_passed (a : AppState) : bool :=
  passedOf (renderResult_accuracy a).

(** The word of a row of the review table:
    [words.find(w => w.id === ans.wordId)]. *)
Definition renderResult_word (a : AppState) (ans : UserAnswer) : option Word :=
  find (fun w => id w =? wordId ans) (words a).

(** *** The user interface: which control exists, and what it calls *)

Inductive Event :=
| TypePlayerId (p : string)     (* lobby: the id input *)
| ClickLevel (level : nat)      (* lobby: one of the ten level buttons *)
| ClickStart                    (* lobby: the start button *)
| ClickOption (option : string) (* game: an option of the current word *)
| ClickBackToLobby              (* result: back to the lobby *)
| ClickRetry                    (* result: try again *)
| ClickNext.                    (* result: next level *)

Definition nonEmpty (s : string) : bool := negb (String.length s =? 0).

Definition shows (a : AppState) (g : GameState) : bool :=
  negb (isLoading a) &&
  match gameState a, g with
  | LOBBY, LOBBY | PLAYING, PLAYING | RESULT, RESULT => true
  | _, _ => false
  end.

(** The control is rendered and not disabled. *)
Definition enabled (a : AppState) (ev : Event) : bool :=
  match ev with
  | TypePlayerId _ => shows a LOBBY
  | ClickLevel level =>
      shows a LOBBY && (1 <=? level) && (level <=? 10)
      && (level <=? unlockedLevel a) && nonEmpty (playerId a)
  | ClickStart => shows a LOBBY && nonEmpty (playerId a)
  | ClickOption option =>
      shows a PLAYING &&
      match nth_error (words a) (currentIndex a) with
      | Some currentWord => existsb (String.eqb option) (options currentWord)
      | None => false
      end
  | ClickBackToLobby | ClickRetry => shows a RESULT
  | ClickNext =>
      shows a RESULT && renderResult_passed a && (currentLevel a <? 10)
  end.

(** The handler of each control, closed over the rendered state. *)
Definition handler (snap : AppState) (ev : Event) : M unit :=
  match ev with
  | TypePlayerId p => setPlayerId p
  | ClickLevel level => setCurrentLevel (fun _ => level);; startLevel level
  | ClickStart => startLevel (unlockedLevel snap)
  | ClickOption option => handleAnswer snap option
  | ClickBackToLobby => setGameState LOBBY
  | ClickRetry => startLevel (currentLevel snap)
  | ClickNext =>
      setCurrentLevel (fun prev => prev + 1);;
      startLevel (currentLevel snap + 1)
  end.

(** One event at time [t], the reading of [Date.now()] in its handler:
    nothing happens when the control is not there; otherwise its handler
    runs to completion on the rendered state. *)
Definition dispatch (t : Z) (ev : Event) (s : Store) : Store * Result unit :=
  if enabled (react s) ev
  then handler (react s) ev
         {| react := react s; console := console s; clock := t |}
  else (s, Return tt).

Definition step (s : Store) (tev : Z * Event) : Store :=
  fst (dispatch (fst tev) (snd tev) s).

Definition run (s : Store) (trace : list (Z * Event)) : Store :=
  fold_left step trace s.

Definition initialStore : Store :=
  {| react := initialState; console := []; clock := 0%Z |}.

End App.

(** ** A reference engine

    Straight insertion sort, the algorithm engines run on short arrays:
<<
    for (i = 1; i < n; i++) {
      element = a[i];
      for (j = i - 1; j >= 0; j--) {
        tmp = a[j];
        if (comparefn(tmp, element) > 0) a[j + 1] = tmp; else break;
      }
      a[j + 1] = element;
    }
>>
    The sorted prefix is kept in reverse order (last element first) together
    with the number of comparator calls made so far. *)
Module Engine.

Fixpoint sift (c : nat -> float) (k : nat) (element : string)
         (rev_prefix : list string) : list string * nat :=
  match rev_prefix with
  | [] => ([element], k)
  | tmp :: rest =>
      if PrimFloat.ltb 0%float (c k)
      then let (r, k') := sift c (S k) element rest in (tmp :: r, k')
      else (element :: tmp :: rest, S k)
  end.

Definition insertionSort (c : nat -> float) (l : list string)
  : list string :=
  rev (fst (fold_left (fun acc element => sift c (snd acc) element (fst acc))
                      l ([], 0))).

(** A source of random numbers that replays a fixed list. *)
Definition replay (draws : list float) : Z -> nat -> nat -> float :=
  fun _ _ k => nth k draws 0.25%float.

Definition runtime (draws : list float) : Runtime :=
  {| math_random := replay draws; array_sort := insertionSort |}.

End Engine.

(** * Notions used by the properties *)

(** ** What a run leaves of the store *)

(** [extends s s']: the run from [s] to [s'] only wrote to the console. *)
Definition extends (s s' : Store) : Prop :=
  react s' = react s /\ clock s' = clock s /\
  exists lines, console s' = console s ++ lines.

(** ** The state after a handler, as functions of the state before *)

(** What [generateDistractors] resolves to at time [t]. *)
Definition distractorsOf (ai : GenAI) (t : Z) (word translation : string)
  : list string :=
  match reply_distractors ai t word translation with
  | Return distractors => distractors
  | Throw _ => placeholderDistractors
  end.

Section Notions.

Variable sheetsService : SheetsService.
Variable ai : GenAI.
Variable js : Runtime.

(** The option list before it is ordered: [[...distractors, w.translation]]. *)
Definition optionSet (now : Z) (w : RawWord) : list string :=
  distractorsOf ai now (raw_word w) (raw_translation w)
  ++ [raw_translation w].

Definition preparedWord (now t : Z) (idx : nat) (w : RawWord) : Word :=
  {| id := idx;
     word := raw_word w;
     translation := raw_translation w;
     options := array_sort js (fun k => (math_random js t idx k - 0.5)%float)
                           (optionSet now w);
     correctAnswer := raw_translation w |}.

Fixpoint preparedFrom (now t : Z) (idx : nat) (l : list RawWord)
  : list Word :=
  match l with
  | [] => []
  | w :: rest => preparedWord now t idx w :: preparedFrom now t (S idx) rest
  end.

(** The raw words that step 1 obtains at time [t]. *)
Definition rawWordsOf (level : nat) (t : Z) : Result (list RawWord) :=
  match snd (fetchLevelWords sheetsService level t) with
  | Throw e => Throw e
  | Return rawWords =>
      if List.length rawWords =? 0
      then match MOCK_WORDS level with
           | Some mock => Return mock
           | None => reply_words ai t level
           end
      else Return rawWords
  end.

(** The state once a level is loaded: a fresh session on [ws]. *)
Definition loaded (a : AppState) (ws : list Word) (now : Z) : AppState :=
  {| gameState := PLAYING; playerId := playerId a;
     currentLevel := currentLevel a; words := ws; currentIndex := 0;
     userAnswers := []; startTime := now; isLoading := false;
     unlockedLevel := unlockedLevel a |}.

(** The state when loading failed: only the spinner is reset. *)
Definition notLoaded (a : AppState) : AppState :=
  {| gameState := gameState a; playerId := playerId a;
     currentLevel := currentLevel a; words := words a;
     currentIndex := currentIndex a; userAnswers := userAnswers a;
     startTime := startTime a; isLoading := false;
     unlockedLevel := unlockedLevel a |}.

Definition startedState (level : nat) (a : AppState) (t : Z) : AppState :=
  match rawWordsOf level t with
  | Return rawWords =>
      loaded a (preparedFrom t t 0 (firstn 50 rawWords)) t
  | Throw _ => notLoaded a
  end.

(** The values [finishLevel] computes from the render it closed over. *)
Definition finishLevel_correctCount (snap : AppState) : nat :=
  correctCountOf (userAnswers snap).
Definition finishLevel_accuracy (snap : AppState) : float :=
  accuracyOf (finishLevel_correctCount snap) (List.length (words snap)).
Definition finishLevel_passed (snap : AppState) : bool :=
  passedOf (finishLevel_accuracy snap).

(** The guard of [setUnlockedLevel(prev => prev + 1)]. *)
Definition advances (snap : AppState) : bool :=
  finishLevel_passed snap
  && (currentLevel snap =? unlockedLevel snap)
  && (unlockedLevel snap <? 10).

Definition finishLevel_record (snap : AppState) (now : Z) : GameRecord :=
  {| playerNo := now;
     rec_playerId := playerId snap;
     rec_startTime := startTime snap;
     rec_endTime := now;
     duration := formatDuration (now - startTime snap);
     maxLevel := currentLevel snap;
     totalWords := List.length (words snap);
     rec_correctCount := finishLevel_correctCount snap;
     rec_accuracy := finishLevel_accuracy snap |}.

Definition unlockNext (b : bool) (a : AppState) : AppState :=
  if b then with_unlockedLevel (unlockedLevel a + 1) a else a.

(** How the save of the record of [snap] settles at time [t]. *)
Definition saveOutcome (snap : AppState) (t : Z) : Result unit :=
  snd (saveRecord sheetsService (finishLevel_record snap t) t).

(** The entry [handleAnswer] appends for the word [w]. *)
Definition answerEntry (w : Word) (selected : string) : UserAnswer :=
  {| wordId := id w; selected := selected;
     isCorrect := String.eqb selected (correctAnswer w) |}.

Definition answered (w : Word) (selected : string) (a : AppState)
  : AppState :=
  with_userAnswers (userAnswers a ++ [answerEntry w selected]) a.

Definition withStore (a : AppState) (s : Store) : Store :=
  {| react := a; console := console s; clock := clock s |}.

(** The event is an answer to the last question of the session on
    screen: the one that completes it and calls [finishLevel]. *)
Definition completes (a : AppState) (ev : Event) : bool :=
  match ev with
  | ClickOption _ =>
      enabled a ev && negb (currentIndex a + 1 <? List.length (words a))
  | _ => false
  end.

End Notions.

(** ** Invariants and observations *)

(** What holds of the session cells between two events. *)
Definition sessionInv (a : AppState) : Prop :=
  isLoading a = false
  /\ currentIndex a <= List.length (words a)
  /\ (words a <> [] -> currentIndex a < List.length (words a))
  /\ (gameState a = PLAYING -> List.length (userAnswers a) = currentIndex a)
  /\ (gameState a <> PLAYING ->
      List.length (userAnswers a) = List.length (words a)
      /\ (words a <> [] -> currentIndex a + 1 = List.length (words a))).

(** The binary64 test agrees with the exact one, [100 c / n >= 90], on every
    count a session can have (at most 50 questions). *)
Definition thresholdExact (n c : nat) : bool :=
  Bool.eqb (passedOf (accuracyOf c n)) (9 * n <=? 10 * c).

(** The records that [saveRecord] logged. *)
Definition savedRecords (lines : list ConsoleLine) : list GameRecord :=
  flat_map (fun l => match l with ConsoleLog _ r => [r] | _ => [] end) lines.

(** A failure of [startLevel] was logged. *)
Definition loggedStartFailure (lines : list ConsoleLine) : bool :=
  existsb (fun l => match l with
                    | ConsoleError msg _ =>
                        String.eqb msg "Failed to start level:"
                    | _ => false
                    end) lines.

(** What ECMAScript guarantees of [Array.prototype.sort] whatever the
    comparator answers: the array is rearranged, nothing is added or lost. *)
Definition sortPermutes (js : Runtime) : Prop :=
  forall c l, Permutation l (array_sort js c l).

(** A fair coin as the random source: a draw below one half or above it.
    The comparator [Math.random() - 0.5] only passes on the sign. *)
Definition coin (b : bool) : float := if b then 0.75%float else 0.25%float.

(** All sequences of [n] coin flips, each as likely as any other. *)
Fixpoint coinFlips (n : nat) : list (list bool) :=
  match n with
  | 0 => [[]]
  | S n' =>
      map (cons true) (coinFlips n') ++ map (cons false) (coinFlips n')
  end.

Fixpoint list_eqb (l1 l2 : list string) : bool :=
  match l1, l2 with
  | [], [] => true
  | x :: r1, y :: r2 => String.eqb x y && list_eqb r1 r2
  | _, _ => false
  end.

Definition fourOptions : list string :=
  ["错误选项1"; "错误选项2"; "错误选项3"; "放弃"].

Fixpoint insertions (x : string) (l : list string) : list (list string) :=
  match l with
  | [] => [[x]]
  | y :: r => (x :: y :: r) :: map (cons y) (insertions x r)
  end.

Fixpoint permutations (l : list string) : list (list string) :=
  match l with
  | [] => [[]]
  | x :: r => flat_map (insertions x) (permutations r)
  end.

(** The runtime [js] with [Math.random] following a run of coin flips. *)
Definition withFlips (js : Runtime) (flips : list bool) : Runtime :=
  {| math_random := fun _ _ k => nth k (map coin flips) 0.25%float;
     array_sort := array_sort js |}.

(** The options [startLevel] gives the question made of [w] when
    [Math.random] follows the flips. *)
Definition shuffledOptions (ai : GenAI) (js : Runtime) (now : Z)
           (w : RawWord) (flips : list bool) : list string :=
  options (preparedWord ai (withFlips js flips) now now 0 w).

(** In how many of the runs the outcome [out] is the given order. *)
Definition waysIn (out : list bool -> list string)
           (runs : list (list bool)) (order : list string) : nat :=
  List.length (filter (fun flips => list_eqb (out flips) order) runs).

(** In how many of the [2^k] equally likely runs of [k] flips the options of
    the question come out in the given order. *)
Definition waysOf (ai : GenAI) (js : Runtime) (now : Z) (w : RawWord)
           (k : nat) (order : list string) : nat :=
  waysIn (shuffledOptions ai js now w) (coinFlips k) order.

(** ** Notions of the further properties *)

(** The two decimal digits of a number below 100. *)
Definition twoDigits (n : nat) : string :=
  String (Ascii.ascii_of_nat (48 + n / 10))
         (String (Ascii.ascii_of_nat (48 + n mod 10)) EmptyString).

Definition secondsFieldOK (n : nat) : bool :=
  String.eqb (padStart2 (toString (Z.of_nat n))) (twoDigits n).

(** The utterance [playWord] makes of a word. *)
Definition spoken (word : string) : Utterance :=
  {| utter_text := word; utter_lang := "en-US";
     utter_rate := 0x1.ccccccccccccdp-1%float |}.

(** The pronunciation button pressed for each word of a list in turn. *)
Definition playAll (pressed : list string) (q : SpeechQueue) : SpeechQueue :=
  fold_left (fun q word => playWord word q) pressed q.

(** The last word of the list that is not the empty string. *)
Definition lastNonEmpty (pressed : list string) : option string :=
  find nonEmpty (rev pressed).

(** The error lines of the distractor requests that failed at time [now],
    one per word, in the order of the words. *)
Definition distractorErrors (ai : GenAI) (now : Z) (raws : list RawWord)
  : list ConsoleLine :=
  flat_map
    (fun w =>
       match reply_distractors ai now (raw_word w) (raw_translation w) with
       | Throw e => [ConsoleError "Error generating distractors:" e]
       | Return _ => []
       end)
    raws.

(** The error line, if any, and the result of the callback at position
    [idx] of [l]. *)
Definition errorsAt (ai : GenAI) (now : Z) (l : list RawWord) (idx : nat)
  : list ConsoleLine :=
  match nth_error l idx with
  | Some w => distractorErrors ai now [w]
  | None => []
  end.

(** The orders in which [n] requests can complete. *)
Definition completionOrder (n : nat) (order : list nat) : Prop :=
  Permutation (seq 0 n) order.

(** The level on screen is one of the ten, and only the lobby can be shown
    without a player id. *)
Definition levelInv (a : AppState) : Prop :=
  1 <= currentLevel a <= 10
  /\ (gameState a <> LOBBY -> nonEmpty (playerId a) = true).

(** Every recorded answer is the answer to the question at its own position,
    judged against the translation of that question. *)
Definition answersMatch (ws : list Word) (answers : list UserAnswer) : Prop :=
  forall i ans,
    nth_error answers i = Some ans ->
    exists w,
      nth_error ws i = Some w /\ wordId ans = i
      /\ isCorrect ans = String.eqb (selected ans) (translation w).

Definition reviewInv (a : AppState) : Prop :=
  map id (words a) = seq 0 (List.length (words a))
  /\ Forall (fun w => correctAnswer w = translation w) (words a)
  /\ List.length (words a) <= 50
  /\ answersMatch (words a) (userAnswers a).

(** [quiet m]: the computation saves no record, whatever else it logs. *)
Definition quiet {A} (m : M A) : Prop :=
  forall s, savedRecords (console (fst (m s))) = savedRecords (console s).

(** What the sheet of records can rely on in a saved record. *)
Definition recordOK (r : GameRecord) : Prop :=
  rec_playerId r <> EmptyString
  /\ 1 <= maxLevel r <= 10
  /\ 1 <= totalWords r <= 50
  /\ rec_correctCount r < totalWords r.

(** The readings of [Date.now()] in the handlers of a trace do not
    decrease, from [from] on. *)
Fixpoint chronological (from : Z) (trace : list (Z * Event)) : bool :=
  match trace with
  | [] => true
  | (t, _) :: rest => (from <=? t)%Z && chronological t rest
  end.

(** An event with the time at which the control is operated, [clickedAt],
    and the time at which its handler reads [Date.now()], [readAt]: the
    same for an answer, later by the time the words take to arrive and be
    prepared for a start. *)
Record TimedEvent := mkTimed {
  clickedAt : Z;
  readAt : Z;
  operated : Event
}.

(** The clock does not run backwards: each handler reads it no earlier than
    its control was operated, and a control is operated no earlier than the
    handler before it has read the clock (while a level loads nothing can
    be operated). *)
Fixpoint causal (from : Z) (trace : list TimedEvent) : bool :=
  match trace with
  | [] => true
  | e :: rest =>
      (from <=? clickedAt e)%Z && (clickedAt e <=? readAt e)%Z
      && causal (readAt e) rest
  end.

(** What the handlers see of a timed trace. *)
Definition readings (trace : list TimedEvent) : list (Z * Event) :=
  map (fun e => (readAt e, operated e)) trace.

(** The record spans a time that does not run backwards, and its duration
    field renders that span. *)
Definition recordTimed (r : GameRecord) : Prop :=
  (rec_startTime r <= rec_endTime r)%Z
  /\ duration r = formatDuration (rec_endTime r - rec_startTime r).

(** The records of the sessions that a trace completes from [s] on: one for
    each answer that completes a session, built by [finishLevel] from the
    render the answer was clicked in. *)
Fixpoint completedRecords (sheetsService : SheetsService) (ai : GenAI)
         (js : Runtime) (s : Store) (trace : list (Z * Event))
  : list GameRecord :=
  match trace with
  | [] => []
  | tev :: rest =>
      (if completes (react s) (snd tev)
       then [finishLevel_record (react s) (fst tev)]
       else [])
      ++ completedRecords sheetsService ai js
           (step sheetsService ai js s tev) rest
  end.

(** The invariants of the states the player can reach, together. *)
Definition storeInv (s : Store) : Prop :=
  sessionInv (react s) /\ reviewInv (react s) /\ levelInv (react s).

(** The accuracy of [c] correct answers out of [n] is a percentage, and more
    correct answers give a strictly higher one. *)
Definition accuracyRangeOK (n c : nat) : bool :=
  PrimFloat.leb 0%float (accuracyOf c n)
  && PrimFloat.leb (accuracyOf c n) 100%float
  && forallb (fun c' => PrimFloat.ltb (accuracyOf c n) (accuracyOf c' n))
             (seq (S c) (n - c)).

(** The spinner is off and every question offers its correct answer. *)
Definition answerableInv (a : AppState) : Prop :=
  isLoading a = false
  /\ Forall (fun w => In (correctAnswer w) (options w)) (words a).

(** ** Fixtures: the demo configuration and played levels *)

(** No model reachable: every request is rejected. *)
Definition offlineAI : GenAI :=
  {| reply_words := fun _ _ => Throw ServiceError;
     reply_distractors := fun _ _ _ => Throw ServiceError |}.

(** [new GoogleSheetsService(undefined)]: no sheet id configured. *)
Definition demoService : SheetsService := GoogleSheetsService EmptyString.

Definition demoRuntime : Runtime :=
  Engine.runtime [0.75; 0.25; 0.75; 0.75; 0.25; 0.75]%float.

(** The translations of the ten mock words of level 1, in order. *)
Definition level1Answers : list string :=
  map raw_translation match MOCK_WORDS 1 with Some l => l | None => [] end.

(** The player types an id, presses start and clicks the given options. *)
Definition play (clicks : list string) : list (Z * Event) :=
  (1000%Z, TypePlayerId "p") :: (2000%Z, ClickStart)
  :: map (fun option => (62000%Z, ClickOption option)) clicks.

(** Level 1 of the demo, all ten answers right. *)
Definition allRight : Store :=
  run demoService offlineAI demoRuntime initialStore (play level1Answers).

(** Level 1 of the demo, the first answer wrong and the other nine right. *)
Definition firstWrong : Store :=
  run demoService offlineAI demoRuntime initialStore
      (play ("错误选项1" :: tl level1Answers)).

(** Level 1 of the demo before the tenth click, nine answers right. *)
Definition nineRight : Store :=
  run demoService offlineAI demoRuntime initialStore
      (play (firstn 9 level1Answers)).

(** The replay of the specification: level 2 is played again, every answer
    right, while [unlockedLevel] is already 5. *)
Definition replayStore : Store :=
  {| react := with_unlockedLevel 5 (with_currentLevel 2 (react nineRight));
     console := []; clock := 0 |}.

(** A session started on an empty word list. *)
Definition emptySession : AppState := loaded initialState [] 2000.

Definition emptyStore : Store :=
  {| react := emptySession; console := []; clock := 3000 |}.

(** A record sink that is unavailable: every save is rejected. *)
Definition failingSink : SheetsService :=
  {| fetchLevelWords := fetchLevelWords demoService;
     saveRecord := fun _ _ => ([], Throw ServiceError) |}.

(** The model answers the request for words with an empty array. *)
Definition emptyReplyAI : GenAI :=
  {| reply_words := fun _ _ => Return [];
     reply_distractors := fun _ _ _ => Throw ServiceError |}.

(** Level 1 is cleared, then the next level is requested. *)
Definition nextLevelOnEmptyReply : Store :=
  run demoService emptyReplyAI demoRuntime initialStore
      (play level1Answers ++ [(70000%Z, ClickNext)]).

(** A model that answers with the translation itself and a repeated
    distractor. *)
Definition echoAI : GenAI :=
  {| reply_words := fun _ _ => Throw ServiceError;
     reply_distractors := fun _ _ translation =>
       Return [translation; "近义词"; "近义词"] |}.

(** The first question of the demo level when the model is unreachable. *)
Definition abandonQuestion : Word :=
  preparedWord offlineAI demoRuntime 2000 2000 0 (mkRaw "abandon" "放弃").

Definition mockLevel1 : list RawWord :=
  match MOCK_WORDS 1 with Some l => l | None => [] end.

(** A model that knows the words of level 2 only. *)
Definition frontierAI : GenAI :=
  {| reply_words := fun _ level =>
       if level =? 2
       then Return (repeat (mkRaw "second" "第二") 10)
       else Throw ServiceError;
     reply_distractors := fun _ _ _ => Throw ServiceError |}.

(** Level 1 is cleared, which unlocks level 2; back in the lobby the start
    button starts the newly unlocked level, and all ten answers are right. *)
Definition frontierTrace : list (Z * Event) :=
  play level1Answers
  ++ [(70000%Z, ClickBackToLobby); (80000%Z, ClickStart)]
  ++ map (fun option => (90000%Z, ClickOption option)) (repeat "第二" 10).

Definition frontierBefore : Store :=
  run demoService frontierAI demoRuntime initialStore
      (firstn 14 frontierTrace).

Definition frontierCleared : Store :=
  run demoService frontierAI demoRuntime initialStore frontierTrace.

(** The demo level played to the end, the start button clicked at 2000 and
    the words ready at 5000. *)
Definition slowStartTrace : list TimedEvent :=
  mkTimed 1000 1000 (TypePlayerId "p") :: mkTimed 2000 5000 ClickStart
  :: map (fun option => mkTimed 62000 62000 (ClickOption option))
         level1Answers.

(** * Properties *)

(** ** What a run leaves of the store *)

Lemma extends_refl s : extends s s.
Proof.
  repeat split. exists []. now rewrite app_nil_r.
Qed.

Lemma extends_trans s1 s2 s3 : extends s1 s2 -> extends s2 s3 -> extends s1 s3.
Proof.
  intros (Hr1 & Hc1 & l1 & Hl1) (Hr2 & Hc2 & l2 & Hl2).
  repeat split; try congruence.
  exists (l1 ++ l2). now rewrite Hl2, Hl1, app_assoc.
Qed.

Lemma call_extends {A} (c : Service A) s : extends s (fst (call c s)).
Proof.
  unfold call; cbn. repeat split. now eexists.
Qed.

Lemma call_result {A} (c : Service A) s : snd (call c s) = snd (c (clock s)).
Proof. reflexivity. Qed.

(** ** The prepared words, as a function of the raw words *)

Lemma bind_Return {A B} (m : M A) (k : A -> M B) s s1 a :
  m s = (s1, Return a) -> bind m k s = k a s1.
Proof. unfold bind. now intros ->. Qed.

Lemma bind_Throw {A B} (m : M A) (k : A -> M B) s s1 e :
  m s = (s1, Throw e) -> bind m k s = (s1, Throw e).
Proof. unfold bind. now intros ->. Qed.

Lemma generateDistractors_run ai word translation s :
  exists s',
    generateDistractors ai word translation s
    = (s', Return (distractorsOf ai (clock s) word translation))
    /\ extends s s'.
Proof.
  unfold generateDistractors, distractorsOf, try_catch, bind, Date_now,
    liftResult, ret.
  destruct (reply_distractors ai (clock s) word translation); cbn.
  - eexists; split; [reflexivity | apply extends_refl].
  - eexists; split; [reflexivity |]. repeat split. now eexists.
Qed.

Section Prepared.

Variable ai : GenAI.
Variable js : Runtime.

Lemma prepareWord_run t idx w s :
  exists s',
    prepareWord ai js t idx w s
    = (s', Return (preparedWord ai js (clock s) t idx w))
    /\ extends s s'.
Proof.
  unfold prepareWord.
  destruct (generateDistractors_run ai (raw_word w) (raw_translation w) s)
    as (s1 & Heq & He).
  rewrite (bind_Return _ _ _ _ _ Heq).
  exists s1. split; [reflexivity | exact He].
Qed.

Lemma prepareFrom_run t l : forall idx s,
  exists s',
    prepareFrom ai js t idx l s
    = (s', Return (preparedFrom ai js (clock s) t idx l))
    /\ extends s s'.
Proof.
  induction l as [|w rest IH]; intros idx s; cbn [prepareFrom preparedFrom].
  - exists s. split; [reflexivity | apply extends_refl].
  - destruct (prepareWord_run t idx w s) as (s1 & Heq & He).
    rewrite (bind_Return _ _ _ _ _ Heq).
    destruct (IH (S idx) s1) as (s2 & Heq' & He').
    rewrite (bind_Return _ _ _ _ _ Heq').
    exists s2. split; [| eapply extends_trans; eassumption].
    destruct He as (_ & Hc & _). now rewrite Hc.
Qed.

Lemma preparedFrom_length now t l : forall idx,
  List.length (preparedFrom ai js now t idx l) = List.length l.
Proof.
  induction l; intros; cbn; [reflexivity | now rewrite IHl].
Qed.

Lemma preparedFrom_ids now t l : forall idx,
  map id (preparedFrom ai js now t idx l) = seq idx (List.length l).
Proof.
  induction l; intros; cbn; [reflexivity | now rewrite IHl].
Qed.

Lemma preparedFrom_nth now t l : forall idx i w,
  nth_error l i = Some w ->
  nth_error (preparedFrom ai js now t idx l) i
  = Some (preparedWord ai js now t (idx + i) w).
Proof.
  induction l as [|x rest IH]; intros idx i w H.
  - destruct i; discriminate.
  - destruct i as [|i]; cbn in *.
    + injection H as ->. now rewrite Nat.add_0_r.
    + rewrite (IH (S idx) i w H). f_equal. f_equal. lia.
Qed.

Lemma preparedFrom_In now t l : forall idx p,
  In p (preparedFrom ai js now t idx l) ->
  exists i w, nth_error l i = Some w /\ p = preparedWord ai js now t (idx + i) w.
Proof.
  induction l as [|x rest IH]; intros idx p H; cbn in H; [contradiction |].
  destruct H as [<- | H].
  - exists 0, x. split; [reflexivity | now rewrite Nat.add_0_r].
  - destruct (IH _ _ H) as (i & w & Hn & ->).
    exists (S i), w. split; [exact Hn | f_equal; lia].
Qed.

Lemma prepareWords_run rawWords s :
  exists s',
    prepareWords ai js rawWords s
    = (s', Return (preparedFrom ai js (clock s) (clock s) 0 (firstn 50 rawWords)))
    /\ extends s s'.
Proof.
  unfold prepareWords, bind, Date_now.
  apply prepareFrom_run.
Qed.

End Prepared.

(** ** Truncation and numbering of the prepared words *)

(** C10.  [startLevel] prepares at most the first 50 raw pairs, whatever the
    source returned, and the question made from the pair at position [i] of
    that truncated list has [id = i]: the ids are exactly
    [0 .. min(len(rawPairs), 50) - 1], without repetition, and pairs from
    position 50 on yield no question.  Preparing never fails and leaves the
    state of the component alone. *)
Theorem prepareWords_first_50_indexed
  (ai : GenAI) (js : Runtime) (rawWords : list RawWord) (s : Store) :
  exists s' prepared,
    prepareWords ai js rawWords s = (s', Return prepared)
    /\ react s' = react s
    /\ List.length prepared = Nat.min (List.length rawWords) 50
    /\ map id prepared = seq 0 (Nat.min (List.length rawWords) 50)
    /\ NoDup (map id prepared)
    /\ (forall i w, i < 50 -> nth_error rawWords i = Some w ->
          exists p, nth_error prepared i = Some p
                    /\ id p = i
                    /\ word p = raw_word w
                    /\ translation p = raw_translation w
                    /\ correctAnswer p = raw_translation w)
    /\ (forall i, 50 <= i -> nth_error prepared i = None).
Proof.
  destruct (prepareWords_run ai js rawWords s) as (s' & Heq & Hr & _).
  exists s', (preparedFrom ai js (clock s) (clock s) 0 (firstn 50 rawWords)).
  assert (Hlen : List.length (firstn 50 rawWords)
                 = Nat.min (List.length rawWords) 50)
    by (rewrite length_firstn; apply Nat.min_comm).
  repeat split.
  - exact Heq.
  - exact Hr.
  - now rewrite preparedFrom_length.
  - now rewrite preparedFrom_ids, Hlen.
  - rewrite preparedFrom_ids. apply seq_NoDup.
  - intros i w Hi Hn.
    assert (Hn' : nth_error (firstn 50 rawWords) i = Some w)
      by (rewrite nth_error_firstn;
          destruct (Nat.ltb_spec i 50); [exact Hn | lia]).
    eexists. split; [apply (preparedFrom_nth _ _ _ _ _ 0 i w Hn') |].
    cbn. repeat split.
  - intros i Hi. apply nth_error_None.
    rewrite preparedFrom_length, Hlen. lia.
Qed.

(** ** What [startLevel] does to the state *)

Section StartLevel.

Variable sheetsService : SheetsService.
Variable ai : GenAI.
Variable js : Runtime.

Lemma fetchRawWords_run level s :
  exists s',
    fetchRawWords sheetsService ai level s
    = (s', rawWordsOf sheetsService ai level (clock s))
    /\ extends s s'.
Proof.
  unfold fetchRawWords, rawWordsOf, bind, call, generateLevelWords, bind,
    Date_now, liftResult, ret.
  destruct (fetchLevelWords sheetsService level (clock s)) as [lines r];
    cbn.
  assert (He : extends s {| react := react s; console := console s ++ lines;
                            clock := clock s |})
    by (repeat split; now eexists).
  destruct r as [rawWords | e]; [| eexists; split; [reflexivity | exact He]].
  destruct (List.length rawWords =? 0);
    [| eexists; split; [reflexivity | exact He]].
  destruct (MOCK_WORDS level);
    eexists; (split; [reflexivity | exact He]).
Qed.

Lemma startLevel_run level s :
  exists lines,
    startLevel sheetsService ai js level s
    = ({| react := startedState sheetsService ai js level (react s) (clock s);
          console := console s ++ lines;
          clock := clock s |}, Return tt)
    /\ (forall e, rawWordsOf sheetsService ai level (clock s) = Throw e ->
          exists before,
            lines = before ++ [ConsoleError "Failed to start level:" e]).
Proof.
  unfold startLevel, startedState.
  destruct s as [a con clk].
  unfold bind at 1. cbn [setIsLoading setState react console clock].
  set (s1 := {| react := _; console := con; clock := clk |}).
  unfold try_finally, try_catch, loadLevel.
  destruct (fetchRawWords_run level s1) as (s2 & Heq & He).
  cbn [clock s1] in *.
  destruct (rawWordsOf sheetsService ai level clk) as [rawWords | e] eqn:Hraw.
  - rewrite (bind_Return _ _ _ _ _ Heq).
    destruct (prepareWords_run ai js rawWords s2) as (s3 & Heq' & He').
    rewrite (bind_Return _ _ _ _ _ Heq').
    pose proof (extends_trans _ _ _ He He') as (Hr & Hc & lines & Hl).
    destruct He as (_ & Hc2 & _).
    destruct s3 as [a3 con3 clk3]. cbn in Hr, Hc, Hl, Hc2. subst a3 clk3 con3.
    exists lines. cbn. rewrite Hc2. cbn.
    split; [reflexivity | intros e H; discriminate].
  - rewrite (bind_Throw _ _ _ _ _ Heq).
    destruct He as (Hr & Hc & lines & Hl).
    destruct s2 as [a2 con2 clk2]. cbn in Hr, Hc, Hl. subst a2 clk2 con2.
    exists (lines ++ [ConsoleError "Failed to start level:" e]).
    cbn. rewrite app_assoc.
    split; [reflexivity |].
    intros e' H. injection H as <-. now exists lines.
Qed.

End StartLevel.

(** ** What [handleAnswer] and [finishLevel] do to the state *)

Section Answering.

Variable sheetsService : SheetsService.

Lemma finishLevel_run snap s :
  finishLevel sheetsService snap s
  = ({| react :=
          match saveOutcome sheetsService snap (clock s) with
          | Return _ =>
              with_gameState RESULT (unlockNext (advances snap) (react s))
          | Throw _ => unlockNext (advances snap) (react s)
          end;
        console :=
          console s
          ++ fst (saveRecord sheetsService
                    (finishLevel_record snap (clock s)) (clock s));
        clock := clock s |},
     saveOutcome sheetsService snap (clock s)).
Proof.
  unfold finishLevel, saveOutcome, advances, finishLevel_passed,
    finishLevel_accuracy, finishLevel_correctCount, finishLevel_record.
  destruct s as [a con clk].
  unfold bind at 1. cbn [Date_now clock].
  destruct (passedOf _) eqn:Hp; cbn [andb];
    [destruct ((currentLevel snap =? unlockedLevel snap)
               && (unlockedLevel snap <? 10)) eqn:Hg |];
    cbn; unfold call; cbn;
    destruct (saveRecord sheetsService _ clk) as [lines [[]|e]];
    reflexivity.
Qed.

Lemma handleAnswer_run snap selected w s :
  nth_error (words snap) (currentIndex snap) = Some w ->
  handleAnswer sheetsService snap selected s
  = if currentIndex snap + 1 <? List.length (words snap)
    then (withStore
            (with_currentIndex
               (currentIndex (react s) + 1)
               (answered w selected (react s))) s,
          Return tt)
    else finishLevel sheetsService snap
           (withStore (answered w selected (react s)) s).
Proof.
  intros Hw. unfold handleAnswer. rewrite Hw.
  unfold bind at 1. cbn [setUserAnswers setState].
  replace (Z.of_nat (currentIndex snap)
             <? Z.of_nat (List.length (words snap)) - 1)%Z
    with (currentIndex snap + 1 <? List.length (words snap)).
  - destruct (currentIndex snap + 1 <? List.length (words snap));
      reflexivity.
  - destruct (Nat.ltb_spec (currentIndex snap + 1)
                           (List.length (words snap)));
      symmetry; [apply Z.ltb_lt | apply Z.ltb_ge]; lia.
Qed.

Lemma handleAnswer_undefined snap selected s :
  nth_error (words snap) (currentIndex snap) = None ->
  handleAnswer sheetsService snap selected s = (s, Throw TypeError).
Proof.
  intros Hw. unfold handleAnswer. now rewrite Hw.
Qed.

End Answering.

(** ** Progression: the only way [unlockedLevel] changes *)

Section Progression.

Variable sheetsService : SheetsService.
Variable ai : GenAI.
Variable js : Runtime.

Lemma startedState_unlockedLevel level a t :
  unlockedLevel (startedState sheetsService ai js level a t)
  = unlockedLevel a.
Proof.
  unfold startedState. now destruct (rawWordsOf sheetsService ai level t).
Qed.

Lemma startLevel_unlockedLevel level s :
  unlockedLevel (react (fst (startLevel sheetsService ai js level s)))
  = unlockedLevel (react s).
Proof.
  destruct (startLevel_run sheetsService ai js level s) as (lines & -> & _).
  apply startedState_unlockedLevel.
Qed.

Lemma unlockNext_unlockedLevel b a :
  unlockedLevel (unlockNext b a)
  = if b then unlockedLevel a + 1 else unlockedLevel a.
Proof. now destruct b. Qed.

Lemma finishLevel_unlockedLevel snap s :
  unlockedLevel (react (fst (finishLevel sheetsService snap s)))
  = if advances snap then unlockedLevel (react s) + 1
    else unlockedLevel (react s).
Proof.
  rewrite finishLevel_run. cbn [fst react].
  destruct (saveOutcome sheetsService snap (clock s)); cbn;
    apply unlockNext_unlockedLevel.
Qed.

Lemma enabled_option_word a option :
  enabled a (ClickOption option) = true ->
  exists w, nth_error (words a) (currentIndex a) = Some w
            /\ In option (options w).
Proof.
  cbn. intros H. apply andb_prop in H as [_ H].
  destruct (nth_error (words a) (currentIndex a)) as [w|]; [| discriminate].
  exists w. split; [reflexivity |].
  apply existsb_exists in H as (x & Hin & Hx).
  apply String.eqb_eq in Hx. now subst.
Qed.

Lemma enabled_option_playing a option :
  enabled a (ClickOption option) = true -> gameState a = PLAYING.
Proof.
  cbn. intros H. apply andb_prop in H as [Hs _].
  unfold shows in Hs. apply andb_prop in Hs as [_ Hs].
  destruct (gameState a); congruence.
Qed.

Lemma dispatch_unlockedLevel t ev s :
  unlockedLevel (react (fst (dispatch sheetsService ai js t ev s)))
  = if completes (react s) ev && advances (react s)
    then unlockedLevel (react s) + 1
    else unlockedLevel (react s).
Proof.
  unfold dispatch.
  destruct (enabled (react s) ev) eqn:Hen.
  2:{ cbn [fst].
      replace (completes (react s) ev) with false; [reflexivity |].
      destruct ev; cbn [completes]; try reflexivity.
      now rewrite Hen. }
  destruct ev; cbn [completes andb handler]; try reflexivity.
  - unfold bind; cbn [setCurrentLevel setState].
    now rewrite startLevel_unlockedLevel.
  - now rewrite startLevel_unlockedLevel.
  - rewrite Hen. cbn [andb].
    destruct (enabled_option_word _ _ Hen) as (w & Hw & _).
    rewrite (handleAnswer_run _ _ _ w _ Hw).
    destruct (currentIndex (react s) + 1 <? List.length (words (react s)));
      cbn [negb]; [reflexivity |].
    now rewrite finishLevel_unlockedLevel.
  - now rewrite startLevel_unlockedLevel.
  - unfold bind; cbn [setCurrentLevel setState].
    now rewrite startLevel_unlockedLevel.
Qed.

(** The start button of the lobby loads the words of [unlockedLevel] but,
    unlike the level buttons and the next-level button, sets no level:
    [currentLevel], the level [finishLevel] reads and records, keeps the
    value of the session before. *)
Remark lobby_start_keeps_currentLevel t s :
  currentLevel (react (fst (dispatch sheetsService ai js t ClickStart s)))
  = currentLevel (react s).
Proof.
  unfold dispatch. destruct (enabled (react s) ClickStart); [| reflexivity].
  cbn [handler].
  destruct (startLevel_run sheetsService ai js (unlockedLevel (react s))
              {| react := react s; console := console s; clock := t |})
    as (lines & -> & _).
  cbn [fst react clock]. unfold startedState.
  now destruct (rawWordsOf _ _ _ _).
Qed.

Lemma advances_spec a :
  advances a = true <->
  finishLevel_passed a = true
  /\ currentLevel a = unlockedLevel a
  /\ unlockedLevel a < 10.
Proof.
  unfold advances.
  rewrite !andb_true_iff, Nat.eqb_eq, Nat.ltb_lt. tauto.
Qed.

Lemma run_unlockedLevel_bounds trace : forall s,
  1 <= unlockedLevel (react s) <= 10 ->
  1 <= unlockedLevel (react (run sheetsService ai js s trace)) <= 10.
Proof.
  induction trace as [|[t ev] rest IH]; intros s Hs; [exact Hs |].
  cbn [run fold_left]. apply IH.
  unfold step; cbn [fst snd]. rewrite dispatch_unlockedLevel.
  destruct (completes (react s) ev); cbn [andb]; [| exact Hs].
  destruct (advances (react s)) eqn:Ha; [| exact Hs].
  apply advances_spec in Ha. lia.
Qed.

Lemma run_unlockedLevel_monotone trace : forall s,
  unlockedLevel (react s)
  <= unlockedLevel (react (run sheetsService ai js s trace)).
Proof.
  induction trace as [|[t ev] rest IH]; intros s; [apply Nat.le_refl |].
  cbn [run fold_left].
  eapply Nat.le_trans; [| apply IH].
  unfold step; cbn [fst snd]. rewrite dispatch_unlockedLevel.
  destruct (completes (react s) ev && advances (react s)); lia.
Qed.

End Progression.

(** The rule the code applies, for every event of the interface in every
    state: [unlockedLevel] goes up by exactly 1 if and only if the event
    answers the last question, the verdict [finishLevel] computes from the
    answers of its render is a pass, the [currentLevel] cell equals
    [unlockedLevel], and [unlockedLevel < 10]; in every other case, and
    under every other event, it keeps its value.  Hence it never decreases
    and, starting from the initial state, it never exceeds 10.  Neither the
    verdict nor the cell need be those of the session: the verdict misses
    the last answer, and the start button of the lobby leaves the cell
    alone. *)
Theorem unlockedLevel_progression
  (sheetsService : SheetsService) (ai : GenAI) (js : Runtime)
  (t : Z) (ev : Event) (s : Store) :
  let a := react s in
  let a' := react (fst (dispatch sheetsService ai js t ev s)) in
  (unlockedLevel a' = unlockedLevel a + 1 <->
     completes a ev = true /\ finishLevel_passed a = true
     /\ currentLevel a = unlockedLevel a /\ unlockedLevel a < 10)
  /\ (unlockedLevel a' = unlockedLevel a
      \/ unlockedLevel a' = unlockedLevel a + 1)
  /\ (finishLevel_passed a = true -> currentLevel a < unlockedLevel a ->
      unlockedLevel a' = unlockedLevel a)
  /\ unlockedLevel a <= unlockedLevel a'
  /\ (unlockedLevel a <= 10 -> unlockedLevel a' <= 10)
  /\ (forall trace,
        unlockedLevel (react (run sheetsService ai js initialStore trace))
        <= 10)
  /\ (forall trace,
        unlockedLevel a
        <= unlockedLevel (react (run sheetsService ai js s trace))).
Proof.
  intros a a'.
  assert (Hstep : unlockedLevel a'
                  = if completes a ev && advances a
                    then unlockedLevel a + 1 else unlockedLevel a)
    by apply dispatch_unlockedLevel.
  assert (Hiff : completes a ev && advances a = true <->
                 completes a ev = true /\ finishLevel_passed a = true
                 /\ currentLevel a = unlockedLevel a /\ unlockedLevel a < 10)
    by (rewrite andb_true_iff, advances_spec; tauto).
  assert (Hmono : forall trace,
             unlockedLevel a
             <= unlockedLevel (react (run sheetsService ai js s trace)))
    by (intros trace; apply run_unlockedLevel_monotone).
  assert (Hcap : forall trace,
             unlockedLevel (react (run sheetsService ai js initialStore trace))
             <= 10)
    by (intros trace;
        apply (run_unlockedLevel_bounds sheetsService ai js trace
                 initialStore); cbn; lia).
  destruct (completes a ev && advances a).
  - destruct Hiff as [Hiff _].
    destruct (Hiff eq_refl) as (Hc & Hp & Hl & H10).
    split; [split; [intros _; tauto | intros _; exact Hstep] |].
    split; [right; exact Hstep |].
    split; [intros _ Hlt; exfalso; lia |].
    split; [lia |].
    split; [lia |].
    split; assumption.
  - destruct Hiff as [_ Hiff].
    split; [split; [intros H; exfalso; lia
                   | intros H; apply Hiff in H; discriminate] |].
    split; [left; exact Hstep |].
    split; [intros _ _; exact Hstep |].
    split; [lia |].
    split; [lia |].
    split; assumption.
Qed.

Lemma unlockedLevel_progression_witness :
  completes (react replayStore) (ClickOption "账户；解释") = true
  /\ finishLevel_passed (react replayStore) = true
  /\ currentLevel (react replayStore) = 2
  /\ unlockedLevel
       (react (fst (dispatch demoService offlineAI demoRuntime 63000
                      (ClickOption "账户；解释") replayStore)))
     = 5.
Proof.
  assert (Hp : finishLevel_passed (react replayStore) = true)
    by (vm_compute; reflexivity).
  split; [vm_compute; reflexivity |].
  split; [exact Hp |].
  split; [reflexivity |].
  apply (unlockedLevel_progression demoService offlineAI demoRuntime 63000
           (ClickOption "账户；解释") replayStore).
  - exact Hp.
  - cbn. lia.
Defined.

(** C1 fails on the code, in two ways.

    First session: level 1 of the demo, first answer wrong, the other nine
    right.  Nine of the ten recorded answers are correct, the result screen
    shows a pass, the level of the session is 1 and [unlockedLevel] is 1,
    below 10; yet [unlockedLevel] is still 1 afterwards.  [finishLevel]
    reads the answers of the render in which the last option was clicked,
    which lack the last answer: it counts 8 of 10.

    Second session: level 1 is cleared, which unlocks level 2; from the
    lobby the start button starts level 2, the frontier, and all ten
    answers are right.  The words played are those the model gave for level
    2 and [finishLevel] itself finds a pass; yet [unlockedLevel] is still 2
    afterwards and the saved record says level 1.  The start button calls
    [startLevel unlockedLevel] without [setCurrentLevel], so [finishLevel]
    compares the level of the session before. *)
Theorem progression_misses_passed_sessions :
  (gameState (react firstWrong) = RESULT
   /\ List.length (words (react firstWrong)) = 10
   /\ correctCountOf (userAnswers (react firstWrong)) = 9
   /\ renderResult_passed (react firstWrong) = true
   /\ currentLevel (react firstWrong) = 1
   /\ unlockedLevel initialState = 1
   /\ unlockedLevel (react firstWrong) = 1)
  /\ (unlockedLevel (react frontierBefore) = 2
      /\ gameState (react frontierBefore) = PLAYING
      /\ rawWordsOf demoService frontierAI 2 80000
         = Return (repeat (mkRaw "second" "第二") 10)
      /\ map word (words (react frontierBefore)) = repeat "second" 10
      /\ reply_words frontierAI 80000 1 = Throw ServiceError
      /\ gameState (react frontierCleared) = RESULT
      /\ words (react frontierCleared) = words (react frontierBefore)
      /\ map isCorrect (userAnswers (react frontierCleared))
         = repeat true 10
      /\ renderResult_passed (react frontierCleared) = true
      /\ finishLevel_passed
           (react (run demoService frontierAI demoRuntime initialStore
                     (firstn 23 frontierTrace)))
         = true
      /\ currentLevel (react frontierCleared) = 1
      /\ unlockedLevel (react frontierCleared) = 2
      /\ map maxLevel (savedRecords (console frontierCleared)) = [1; 1]).
Proof.
  split.
  - repeat (split; [vm_compute; reflexivity |]). vm_compute; reflexivity.
  - repeat (split; [vm_compute; reflexivity |]). vm_compute; reflexivity.
Qed.

Lemma unlockNext_userAnswers b a :
  userAnswers (unlockNext b a) = userAnswers a.
Proof. now destruct b. Qed.

Lemma finishLevel_userAnswers sheetsService snap s :
  userAnswers (react (fst (finishLevel sheetsService snap s)))
  = userAnswers (react s).
Proof.
  rewrite finishLevel_run. cbn [fst react].
  destruct (saveOutcome sheetsService snap (clock s)); cbn;
    apply unlockNext_userAnswers.
Qed.

(** ** The session: answers, position and completion *)

Lemma sessionInv_initial : sessionInv initialState.
Proof.
  unfold sessionInv; cbn. repeat split; try lia; try congruence.
Qed.

Lemma sessionInv_loaded a ws now : sessionInv (loaded a ws now).
Proof.
  unfold sessionInv; cbn. repeat split; try lia; try congruence.
  intros H. destruct ws; [congruence | cbn; lia].
Qed.

Lemma sessionInv_notLoaded a : sessionInv a -> sessionInv (notLoaded a).
Proof.
  unfold sessionInv; cbn. tauto.
Qed.

Section Session.

Variable sheetId : string.
Variable ai : GenAI.
Variable js : Runtime.

Lemma sessionInv_startLevel level s :
  sessionInv (react s) ->
  sessionInv
    (react (fst (startLevel (GoogleSheetsService sheetId) ai js level s))).
Proof.
  intros H.
  destruct (startLevel_run (GoogleSheetsService sheetId) ai js level s)
    as (lines & -> & _).
  cbn [fst react]. unfold startedState.
  destruct (rawWordsOf _ _ _ _);
    [apply sessionInv_loaded | now apply sessionInv_notLoaded].
Qed.

Lemma sessionInv_dispatch t ev s :
  sessionInv (react s) ->
  sessionInv
    (react (fst (dispatch (GoogleSheetsService sheetId) ai js t ev s))).
Proof.
  intros H. unfold dispatch.
  destruct (enabled (react s) ev) eqn:Hen; [| exact H].
  destruct ev; cbn [handler].
  - cbn. unfold sessionInv in *; cbn. exact H.
  - unfold bind; cbn [setCurrentLevel setState].
    apply sessionInv_startLevel. cbn. exact H.
  - apply sessionInv_startLevel. exact H.
  - destruct (enabled_option_word _ _ Hen) as (w & Hw & _).
    assert (Hlt : currentIndex (react s) < List.length (words (react s)))
      by (apply nth_error_Some; congruence).
    pose proof (enabled_option_playing _ _ Hen) as Hplay.
    destruct H as (Hload & Hle & Hne & Hp & Hr).
    specialize (Hp Hplay).
    rewrite (handleAnswer_run _ _ _ w _ Hw).
    destruct (Nat.ltb_spec (currentIndex (react s) + 1)
                           (List.length (words (react s)))).
    + unfold sessionInv; cbn. rewrite length_app; cbn.
      repeat split; try lia; try congruence.
    + rewrite finishLevel_run. cbn [fst react saveOutcome].
      unfold saveOutcome; cbn [saveRecord GoogleSheetsService snd].
      unfold sessionInv, unlockNext.
      destruct (advances (react s)); cbn; rewrite length_app; cbn;
        repeat split; try lia; try congruence.
  - unfold sessionInv in *; cbn.
    destruct H as (Hload & Hle & Hne & Hp & Hr).
    assert (Hres : gameState (react s) <> PLAYING).
    { cbn in Hen. unfold shows in Hen. apply andb_prop in Hen as [_ Hs].
      destruct (gameState (react s)); congruence. }
    repeat split; try tauto; try congruence; apply Hr; assumption.
  - apply sessionInv_startLevel. exact H.
  - unfold bind; cbn [setCurrentLevel setState].
    apply sessionInv_startLevel. cbn. exact H.
Qed.

Lemma sessionInv_run trace : forall s,
  sessionInv (react s) ->
  sessionInv (react (run (GoogleSheetsService sheetId) ai js s trace)).
Proof.
  induction trace as [|[t ev] rest IH]; intros s Hs; [exact Hs |].
  cbn [run fold_left]. apply IH. now apply sessionInv_dispatch.
Qed.

End Session.

(** ** Answering when no question is active, or after completion *)

(** C6, as stated, fails.  Once the demo level is completed (result screen,
    ten answers to ten questions) the position is 9, not 10, and
    [handleAnswer] called again on that state does not fail: it returns
    normally, appends an eleventh answer and saves a second record.  Where
    the position does equal the number of questions, on an empty word list,
    the failure is the engine's TypeError; the code has no error of its own
    for it. *)
Lemma answer_after_completion_counterexample :
  gameState (react allRight) = RESULT
  /\ List.length (words (react allRight)) = 10
  /\ List.length (userAnswers (react allRight)) = 10
  /\ currentIndex (react allRight) = 9
  /\ List.length (savedRecords (console allRight)) = 1
  /\ snd (handleAnswer demoService (react allRight) "账户；解释" allRight)
     = Return tt
  /\ List.length
       (userAnswers
          (react (fst (handleAnswer demoService (react allRight)
                         "账户；解释" allRight))))
     = 11
  /\ List.length
       (savedRecords
          (console (fst (handleAnswer demoService (react allRight)
                           "账户；解释" allRight))))
     = 2
  /\ currentIndex emptySession = List.length (words emptySession)
  /\ handleAnswer demoService emptySession "放弃" emptyStore
     = (emptyStore, Throw TypeError).
Proof.
  repeat (split; [vm_compute; reflexivity |]). vm_compute; reflexivity.
Qed.

(** C6, as the code has it.  [handleAnswer] has no guard of its own and no
    error named after a missing question.  In a state whose position equals
    the number of questions, [words[currentIndex]] is undefined and the call
    fails with the TypeError of reading [correctAnswer] on it, for every
    chosen option, leaving the store as it was given.  In every state whose
    position is that of a question, the completed session included (its
    position stays on the last question), the call appends the answer and
    either moves on ([Return tt]) or, on the last question, runs
    [finishLevel] and settles as the save of the record does.  What keeps a
    completed session from being answered again is the interface: while the
    game screen is not shown, no option exists, and a click on one changes
    nothing.  In the states the app reaches with the sheets service of the
    repository, the position equals the number of questions only when there
    is no question at all, and a session shown as completed has all its
    answers with its position on the last question. *)
Theorem handleAnswer_guarded_by_interface_only
  (sheetsService : SheetsService) (ai : GenAI) (js : Runtime)
  (snap : AppState) (selected : string) (s : Store) (t : Z) :
  (currentIndex snap = List.length (words snap) ->
   handleAnswer sheetsService snap selected s = (s, Throw TypeError))
  /\ (forall w,
        nth_error (words snap) (currentIndex snap) = Some w ->
        userAnswers
          (react (fst (handleAnswer sheetsService snap selected s)))
        = userAnswers (react s) ++ [answerEntry w selected]
        /\ snd (handleAnswer sheetsService snap selected s)
           = if currentIndex snap + 1 <? List.length (words snap)
             then Return tt
             else saveOutcome sheetsService snap (clock s))
  /\ (shows (react s) PLAYING = false ->
      dispatch sheetsService ai js t (ClickOption selected) s
      = (s, Return tt))
  /\ (forall sheetId trace,
        let a := react (run (GoogleSheetsService sheetId) ai js initialStore
                            trace) in
        (currentIndex a = List.length (words a) -> words a = [])
        /\ (gameState a = RESULT -> words a <> [] ->
            currentIndex a + 1 = List.length (words a)
            /\ List.length (userAnswers a) = List.length (words a))).
Proof.
  split; [| split; [| split]]; cycle 3.
  { intros sheetId trace a.
    destruct (sessionInv_run sheetId ai js trace initialStore
                sessionInv_initial) as (_ & _ & Hlt & _ & Hdone).
    fold a in Hlt, Hdone. split.
    - intros Heq. destruct (words a) as [|w ws] eqn:Hws; [reflexivity |].
      assert (Hne : w :: ws <> []) by discriminate.
      specialize (Hlt Hne). lia.
    - intros Hres Hne.
      assert (Hnp : gameState a <> PLAYING) by (rewrite Hres; discriminate).
      destruct (Hdone Hnp) as (Hall & Hlast). split; [now apply Hlast | exact Hall]. }
  - intros H. apply handleAnswer_undefined.
    apply nth_error_None. lia.
  - intros w Hw. rewrite (handleAnswer_run _ _ _ w _ Hw).
    destruct (currentIndex snap + 1 <? List.length (words snap)).
    + split; reflexivity.
    + split; [now rewrite finishLevel_userAnswers |].
      now rewrite finishLevel_run.
  - intros H. unfold dispatch. cbn [enabled]. now rewrite H.
Qed.

(** C3, as stated, fails on the last answer of a session: after the tenth
    answer of the demo level the session is complete ([RESULT]) with ten
    answers recorded, but the position is still 9, as it was before that
    answer; it equals neither the number of answers nor the number of
    questions. *)
Lemma session_position_counterexample :
  currentIndex (react nineRight) = 9
  /\ List.length (userAnswers (react nineRight)) = 9
  /\ allRight
     = fst (dispatch demoService offlineAI demoRuntime 62000
              (ClickOption "账户；解释") nineRight)
  /\ gameState (react allRight) = RESULT
  /\ List.length (words (react allRight)) = 10
  /\ List.length (userAnswers (react allRight)) = 10
  /\ currentIndex (react allRight) = 9.
Proof.
  vm_compute. repeat split.
Qed.

(** C3, as the code has it.  Every answer to the question on screen appends
    exactly one entry to [userAnswers] and leaves [words] alone.  If the
    question is not the last one, [currentIndex] goes up by exactly 1 and
    play goes on; if it is the last one, [currentIndex] keeps its value
    [len(words) - 1] and the session completes by [gameState] becoming
    [RESULT], which happens exactly when the save of the record resolves.
    So [currentIndex] stays below [len(words)]; and in every state the demo
    service can reach, [len(userAnswers) = currentIndex] during play and
    [len(userAnswers) = currentIndex + 1 = len(words)] once a session is
    complete: completion is the [gameState] cell, not a value of the
    position. *)
Theorem handleAnswer_appends_and_advances
  (sheetsService : SheetsService) (ai : GenAI) (js : Runtime)
  (t : Z) (option : string) (s : Store) :
  enabled (react s) (ClickOption option) = true ->
  let a := react s in
  let a' := react (fst (dispatch sheetsService ai js t (ClickOption option) s))
  in
  exists w,
    nth_error (words a) (currentIndex a) = Some w
    /\ userAnswers a' = userAnswers a ++ [answerEntry w option]
    /\ words a' = words a
    /\ (currentIndex a + 1 < List.length (words a) ->
        currentIndex a' = currentIndex a + 1 /\ gameState a' = PLAYING)
    /\ (currentIndex a + 1 = List.length (words a) ->
        currentIndex a' = currentIndex a
        /\ (gameState a' = RESULT <->
            saveOutcome sheetsService a t = Return tt))
    /\ currentIndex a' < List.length (words a')
    /\ (forall sheetId trace,
          sessionInv
            (react (run (GoogleSheetsService sheetId) ai js initialStore
                        trace))).
Proof.
  intros Hen a a'.
  destruct (enabled_option_word _ _ Hen) as (w & Hw & _).
  assert (Hlt : currentIndex a < List.length (words a))
    by (apply nth_error_Some; unfold a; congruence).
  assert (Hplay : gameState a = PLAYING)
    by (apply (enabled_option_playing _ option), Hen).
  exists w. split; [exact Hw |].
  assert (Hinv : forall sheetId trace,
             sessionInv
               (react (run (GoogleSheetsService sheetId) ai js initialStore
                           trace)))
    by (intros; apply sessionInv_run, sessionInv_initial).
  subst a'. unfold dispatch. rewrite Hen.
  cbn [handler]. rewrite (handleAnswer_run _ _ _ w _ Hw).
  fold a.
  destruct (Nat.ltb_spec (currentIndex a + 1) (List.length (words a))).
  - cbn.
    split; [reflexivity |]. split; [reflexivity |].
    split; [intros _; split; [reflexivity | exact Hplay] |].
    split; [intros Heq; exfalso; lia |].
    split; [lia | exact Hinv].
  - rewrite finishLevel_run. cbn [fst react withStore clock].
    fold a.
    assert (Hsame : forall b,
               userAnswers (unlockNext b (answered w option a))
               = userAnswers a ++ [answerEntry w option]
               /\ words (unlockNext b (answered w option a)) = words a
               /\ currentIndex (unlockNext b (answered w option a))
                  = currentIndex a
               /\ gameState (unlockNext b (answered w option a)) = PLAYING)
      by (intros []; cbn; repeat split; exact Hplay).
    destruct (Hsame (advances a)) as (Hu & Hws & Hi & Hg).
    destruct (saveOutcome sheetsService a t) as [[]|e].
    + cbn. rewrite Hu, Hws, Hi.
      split; [reflexivity |]. split; [reflexivity |].
      split; [intros Hc; exfalso; lia |].
      split; [intros _; split; [reflexivity | tauto] |].
      split; [exact Hlt | exact Hinv].
    + rewrite Hu, Hws, Hi, Hg.
      split; [reflexivity |]. split; [reflexivity |].
      split; [intros Hc; exfalso; lia |].
      split; [intros _; split; [reflexivity | split; congruence] |].
      split; [exact Hlt | exact Hinv].
Qed.

Lemma handleAnswer_appends_and_advances_witness :
  enabled (react nineRight) (ClickOption "账户；解释") = true
  /\ exists w,
       nth_error (words (react nineRight)) (currentIndex (react nineRight))
       = Some w
       /\ userAnswers
            (react (fst (dispatch demoService offlineAI demoRuntime 62000
                           (ClickOption "账户；解释") nineRight)))
          = userAnswers (react nineRight) ++ [answerEntry w "账户；解释"]
       /\ currentIndex
            (react (fst (dispatch demoService offlineAI demoRuntime 62000
                           (ClickOption "账户；解释") nineRight)))
          = currentIndex (react nineRight)
       /\ gameState
            (react (fst (dispatch demoService offlineAI demoRuntime 62000
                           (ClickOption "账户；解释") nineRight)))
          = RESULT.
Proof.
  assert (Hen : enabled (react nineRight) (ClickOption "账户；解释") = true)
    by (vm_compute; reflexivity).
  assert (Hend : currentIndex (react nineRight) + 1
                 = List.length (words (react nineRight)))
    by (vm_compute; reflexivity).
  split; [exact Hen |].
  destruct (handleAnswer_appends_and_advances demoService offlineAI
              demoRuntime 62000 "账户；解释" nineRight Hen)
    as (w & Hw & Ha & _ & _ & Hlast & _).
  exists w. split; [exact Hw |]. split; [exact Ha |].
  destruct (Hlast Hend) as [Hi Hg].
  split; [exact Hi |]. apply Hg. reflexivity.
Defined.

(** ** Scoring *)

(** The formula at the boundary the specification names: 9 of 10 is exactly
    90 and passes, 8 of 10 is exactly 80 and fails. *)
Lemma accuracy_boundaries :
  accuracyOf 9 10 = 90%float /\ passedOf (accuracyOf 9 10) = true
  /\ accuracyOf 8 10 = 80%float /\ passedOf (accuracyOf 8 10) = false.
Proof. vm_compute. repeat split. Qed.

Lemma thresholdExact_upto_50 :
  forallb (fun n => forallb (thresholdExact n) (seq 0 (S n))) (seq 1 50)
  = true.
Proof. vm_compute. reflexivity. Qed.

Lemma passed_iff_ratio n c :
  1 <= n <= 50 -> c <= n ->
  passedOf (accuracyOf c n) = true <-> 9 * n <= 10 * c.
Proof.
  intros Hn Hc.
  pose proof thresholdExact_upto_50 as H.
  rewrite forallb_forall in H.
  specialize (H n). rewrite forallb_forall in H.
  assert (Hin : In n (seq 1 50)) by (apply in_seq; lia).
  assert (Hic : In c (seq 0 (S n))) by (apply in_seq; lia).
  specialize (H Hin c Hic). unfold thresholdExact in H.
  apply Bool.eqb_prop in H. rewrite H. apply Nat.leb_le.
Qed.

(** [finishLevel] is called by [handleAnswer] in the render that does not
    hold the last answer yet: the record and the verdict count the answers
    before it. *)
Lemma finishLevel_scores_previous_answers
  (sheetsService : SheetsService) (ai : GenAI) (js : Runtime)
  (t : Z) (option : string) (s : Store) :
  completes (react s) (ClickOption option) = true ->
  exists w lines,
    userAnswers
      (react (fst (dispatch sheetsService ai js t (ClickOption option) s)))
    = userAnswers (react s) ++ [answerEntry w option]
    /\ saveRecord sheetsService (finishLevel_record (react s) t) t
       = (lines, snd (dispatch sheetsService ai js t (ClickOption option) s))
    /\ rec_correctCount (finishLevel_record (react s) t)
       = correctCountOf (userAnswers (react s)).
Proof.
  intros Hc. cbn [completes] in Hc. apply andb_prop in Hc as [Hen Hlast].
  destruct (enabled_option_word _ _ Hen) as (w & Hw & _).
  unfold dispatch. rewrite Hen. cbn [handler].
  rewrite (handleAnswer_run _ _ _ w _ Hw).
  apply negb_true_iff in Hlast. rewrite Hlast.
  rewrite finishLevel_run. cbn [fst snd react withStore clock].
  exists w, (fst (saveRecord sheetsService (finishLevel_record (react s) t) t)).
  split; [| split; [| reflexivity]].
  - destruct (saveOutcome _ _ _); unfold unlockNext;
      destruct (advances (react s)); reflexivity.
  - unfold saveOutcome. now destruct (saveRecord _ _ _).
Qed.

(** C2, the defect.  The demo level is played with the first answer wrong and
    the other nine right: nine of the ten recorded answers are correct, the
    result screen computes 90 and shows a pass, but [finishLevel] counted 8,
    saved an accuracy of 80 and did not unlock level 2.  With all ten right
    it still saves 9 correct and 90. *)
Theorem finishLevel_misses_last_answer :
  List.length (words (react firstWrong)) = 10
  /\ correctCountOf (userAnswers (react firstWrong)) = 9
  /\ renderResult_accuracy (react firstWrong) = 90%float
  /\ renderResult_passed (react firstWrong) = true
  /\ map rec_correctCount (savedRecords (console firstWrong)) = [8]
  /\ map rec_accuracy (savedRecords (console firstWrong)) = [80%float]
  /\ unlockedLevel (react firstWrong) = 1
  /\ correctCountOf (userAnswers (react allRight)) = 10
  /\ map rec_correctCount (savedRecords (console allRight)) = [9]
  /\ map rec_accuracy (savedRecords (console allRight)) = [90%float].
Proof. vm_compute. repeat split. Qed.

(** ** Scoring a session without questions *)

(** C5, as stated, fails: [finishLevel] run on a session without questions
    raises nothing.  It resolves, stores a record whose accuracy is NaN, and
    shows the result. *)
Lemma finishLevel_empty_counterexample :
  snd (finishLevel demoService emptySession emptyStore) = Return tt
  /\ gameState (react (fst (finishLevel demoService emptySession emptyStore)))
     = RESULT
  /\ map (fun r => is_nan (rec_accuracy r))
         (savedRecords
            (console (fst (finishLevel demoService emptySession emptyStore))))
     = [true]
  /\ map totalWords
         (savedRecords
            (console (fst (finishLevel demoService emptySession emptyStore))))
     = [0].
Proof. vm_compute. repeat split. Qed.

(** C5, as the code has it.  For a session with no question (and so no
    answer) scoring does not fail: [finishLevel] computes the accuracy
    [0 / 0 * 100], which is NaN, so the session does not pass and
    [unlockedLevel] keeps its value; the call settles as the save of the
    record does, and no error of its own is raised.  The interface never
    gets there: an empty session shows no option to click, and
    [handleAnswer] on it throws before any scoring. *)
Theorem finishLevel_empty_session
  (sheetsService : SheetsService) (snap : AppState) (s : Store) :
  words snap = [] -> userAnswers snap = [] ->
  is_nan (finishLevel_accuracy snap) = true
  /\ finishLevel_passed snap = false
  /\ snd (finishLevel sheetsService snap s)
     = saveOutcome sheetsService snap (clock s)
  /\ unlockedLevel (react (fst (finishLevel sheetsService snap s)))
     = unlockedLevel (react s)
  /\ (forall option, enabled snap (ClickOption option) = false)
  /\ (forall option,
        handleAnswer sheetsService snap option s = (s, Throw TypeError)).
Proof.
  intros Hw Ha.
  assert (Hnan : is_nan (finishLevel_accuracy snap) = true)
    by (unfold finishLevel_accuracy, finishLevel_correctCount;
        rewrite Hw, Ha; vm_compute; reflexivity).
  assert (Hp : finishLevel_passed snap = false)
    by (unfold finishLevel_passed, finishLevel_accuracy,
          finishLevel_correctCount;
        rewrite Hw, Ha; vm_compute; reflexivity).
  split; [exact Hnan |]. split; [exact Hp |].
  split; [now rewrite finishLevel_run |].
  split.
  - rewrite finishLevel_unlockedLevel. unfold advances. now rewrite Hp.
  - split; intros option.
    + cbn. rewrite Hw. destruct (currentIndex snap); cbn;
        apply andb_false_r.
    + apply handleAnswer_undefined. rewrite Hw.
      now destruct (currentIndex snap).
Qed.

Lemma finishLevel_empty_session_witness :
  is_nan (finishLevel_accuracy emptySession) = true
  /\ finishLevel_passed emptySession = false
  /\ snd (finishLevel demoService emptySession emptyStore)
     = saveOutcome demoService emptySession (clock emptyStore)
  /\ unlockedLevel (react (fst (finishLevel demoService emptySession
                                  emptyStore)))
     = unlockedLevel (react emptyStore)
  /\ (forall option, enabled emptySession (ClickOption option) = false)
  /\ (forall option,
        handleAnswer demoService emptySession option emptyStore
        = (emptyStore, Throw TypeError)).
Proof.
  apply (finishLevel_empty_session demoService emptySession emptyStore);
    reflexivity.
Defined.

(** ** Saving the record *)

(** C7, as stated, fails: with a sink whose save is rejected, the last
    answer of the demo level leaves the rejection unhandled (it is what the
    call returns), nothing is logged, and the game stays on the last
    question instead of showing the result. *)
Lemma save_failure_counterexample :
  completes (react nineRight) (ClickOption "账户；解释") = true
  /\ snd (dispatch failingSink offlineAI demoRuntime 62000
            (ClickOption "账户；解释") nineRight)
     = Throw ServiceError
  /\ gameState
       (react (fst (dispatch failingSink offlineAI demoRuntime 62000
                      (ClickOption "账户；解释") nineRight)))
     = PLAYING
  /\ console (fst (dispatch failingSink offlineAI demoRuntime 62000
                     (ClickOption "账户；解释") nineRight))
     = console nineRight.
Proof. vm_compute. repeat split. Qed.

(** C7, as the code has it.  [finishLevel] awaits the save with no handler
    around it: the answer that completes a session settles exactly as the
    save does, the console receives what the sink wrote and nothing else,
    and the result is shown if and only if the save resolves.  The sink of
    this repository only logs the record and always resolves, so with it
    every completed session shows its result. *)
Theorem finishLevel_result_shown_iff_saved
  (sheetsService : SheetsService) (ai : GenAI) (js : Runtime)
  (t : Z) (option : string) (s : Store) :
  completes (react s) (ClickOption option) = true ->
  snd (dispatch sheetsService ai js t (ClickOption option) s)
  = saveOutcome sheetsService (react s) t
  /\ (gameState
        (react (fst (dispatch sheetsService ai js t (ClickOption option) s)))
      = RESULT
      <-> saveOutcome sheetsService (react s) t = Return tt)
  /\ console (fst (dispatch sheetsService ai js t (ClickOption option) s))
     = console s
       ++ fst (saveRecord sheetsService (finishLevel_record (react s) t) t)
  /\ (forall sheetId,
        saveOutcome (GoogleSheetsService sheetId) (react s) t = Return tt
        /\ gameState
             (react (fst (dispatch (GoogleSheetsService sheetId) ai js t
                            (ClickOption option) s)))
           = RESULT).
Proof.
  intros Hc.
  assert (Hgen : forall svc,
    snd (dispatch svc ai js t (ClickOption option) s)
    = saveOutcome svc (react s) t
    /\ (gameState (react (fst (dispatch svc ai js t (ClickOption option) s)))
        = RESULT <-> saveOutcome svc (react s) t = Return tt)
    /\ console (fst (dispatch svc ai js t (ClickOption option) s))
       = console s ++ fst (saveRecord svc (finishLevel_record (react s) t) t)).
  { intros svc.
    cbn [completes] in Hc. apply andb_prop in Hc as [Hen Hlast].
    destruct (enabled_option_word _ _ Hen) as (w & Hw & _).
    pose proof (enabled_option_playing _ _ Hen) as Hplay.
    unfold dispatch. rewrite Hen. cbn [handler].
    rewrite (handleAnswer_run _ _ _ w _ Hw).
    apply negb_true_iff in Hlast. rewrite Hlast.
    rewrite finishLevel_run. cbn [fst snd react console withStore clock].
    split; [reflexivity |]. split; [| reflexivity].
    destruct (saveOutcome svc (react s) t) as [[]|e];
      unfold unlockNext; destruct (advances (react s)); cbn;
      rewrite ?Hplay; split; intros; congruence. }
  destruct (Hgen sheetsService) as (H1 & H2 & H3).
  split; [exact H1 |]. split; [exact H2 |]. split; [exact H3 |].
  intros sheetId.
  assert (Hs : saveOutcome (GoogleSheetsService sheetId) (react s) t
               = Return tt) by reflexivity.
  split; [exact Hs |].
  apply (Hgen (GoogleSheetsService sheetId)). exact Hs.
Qed.

Lemma finishLevel_result_shown_iff_saved_witness :
  completes (react nineRight) (ClickOption "账户；解释") = true
  /\ snd (dispatch demoService offlineAI demoRuntime 62000
            (ClickOption "账户；解释") nineRight)
     = Return tt
  /\ gameState
       (react (fst (dispatch demoService offlineAI demoRuntime 62000
                      (ClickOption "账户；解释") nineRight)))
     = RESULT.
Proof.
  assert (Hc : completes (react nineRight) (ClickOption "账户；解释") = true)
    by (vm_compute; reflexivity).
  split; [exact Hc |].
  destruct (finishLevel_result_shown_iff_saved demoService offlineAI
              demoRuntime 62000 "账户；解释" nineRight Hc)
    as (H1 & H2 & _ & _).
  split; [rewrite H1; reflexivity | apply H2; reflexivity].
Defined.

(** ** Starting a level for which no words can be obtained *)

(** When step 1 throws, [startLevel] starts no session: the error is logged
    and only the spinner is reset. *)
Lemma startLevel_source_throws
  (sheetsService : SheetsService) (ai : GenAI) (js : Runtime)
  (level : nat) (s : Store) (e : JsError) :
  rawWordsOf sheetsService ai level (clock s) = Throw e ->
  react (fst (startLevel sheetsService ai js level s)) = notLoaded (react s)
  /\ exists before,
       console (fst (startLevel sheetsService ai js level s))
       = console s ++ before ++ [ConsoleError "Failed to start level:" e].
Proof.
  intros He.
  destruct (startLevel_run sheetsService ai js level s) as (lines & -> & Hl).
  cbn [fst react console]. unfold startedState. rewrite He.
  split; [reflexivity |].
  destruct (Hl e He) as (before & ->). now exists before.
Qed.

(** C8, the defect.  No source has words for level 2: the sheet service
    returns the empty array, there is no mock list, and the model answers
    with an empty array as well.  [startLevel] logs no failure and starts
    the session all the same: the game is [PLAYING] level 2 on zero words,
    a screen on which no control of the interface is enabled. *)
Theorem startLevel_starts_empty_session :
  rawWordsOf demoService emptyReplyAI 2 70000 = Return []
  /\ gameState (react nextLevelOnEmptyReply) = PLAYING
  /\ currentLevel (react nextLevelOnEmptyReply) = 2
  /\ words (react nextLevelOnEmptyReply) = []
  /\ isLoading (react nextLevelOnEmptyReply) = false
  /\ loggedStartFailure (console nextLevelOnEmptyReply) = false
  /\ (forall ev, enabled (react nextLevelOnEmptyReply) ev = false).
Proof.
  assert (Hs : exists a con clk,
             nextLevelOnEmptyReply = {| react := a; console := con;
                                        clock := clk |}
             /\ gameState a = PLAYING /\ currentLevel a = 2 /\ words a = []
             /\ isLoading a = false
             /\ loggedStartFailure con = false
             /\ currentIndex a = 0).
  { vm_compute. do 3 eexists. repeat split. }
  destruct Hs as (a & con & clk & -> & Hg & Hl & Hw & Hload & Hcon & Hi).
  cbn [react console].
  split; [vm_compute; reflexivity |].
  repeat (split; [assumption |]).
  intros ev. destruct ev; cbn; unfold shows; rewrite Hg, ?Hw, ?Hi, ?Hload;
    cbn; reflexivity.
Qed.

(** ** The options of a question *)

Lemma sift_permutes c element : forall rev_prefix k,
  Permutation (element :: rev_prefix)
              (fst (Engine.sift c k element rev_prefix)).
Proof.
  induction rev_prefix as [|tmp rest IH]; intros k; cbn [Engine.sift].
  - apply Permutation_refl.
  - destruct (PrimFloat.ltb 0 (c k)); [| apply Permutation_refl].
    specialize (IH (S k)).
    destruct (Engine.sift c (S k) element rest) as [r k']; cbn [fst] in *.
    eapply perm_trans; [apply perm_swap | now apply perm_skip].
Qed.

Lemma insertionSort_fold_permutes c l : forall acc,
  Permutation
    (rev l ++ fst acc)
    (fst (fold_left
            (fun acc element => Engine.sift c (snd acc) element (fst acc))
            l acc)).
Proof.
  induction l as [|x rest IH]; intros acc; cbn [fold_left rev app].
  - apply Permutation_refl.
  - eapply perm_trans; [| apply IH].
    rewrite <- app_assoc. apply Permutation_app_head. cbn [app].
    apply sift_permutes.
Qed.

Lemma insertionSort_permutes draws : sortPermutes (Engine.runtime draws).
Proof.
  intros c l. cbn [array_sort Engine.runtime]. unfold Engine.insertionSort.
  eapply perm_trans; [apply Permutation_rev |].
  eapply perm_trans; [| apply Permutation_rev].
  pose proof (insertionSort_fold_permutes c l ([], 0)) as H.
  cbn [fst] in H. now rewrite app_nil_r in H.
Qed.

(** Every prepared question comes from a raw pair of the truncated list, at
    its position. *)
Lemma prepareWords_questions ai js rawWords s p :
  In p match snd (prepareWords ai js rawWords s) with
       | Return prepared => prepared
       | Throw _ => []
       end ->
  exists i w,
    nth_error (firstn 50 rawWords) i = Some w
    /\ p = preparedWord ai js (clock s) (clock s) i w.
Proof.
  destruct (prepareWords_run ai js rawWords s) as (s' & -> & _).
  cbn [snd]. intros H.
  apply preparedFrom_In in H as (i & w & Hn & ->). now exists i, w.
Qed.

Lemma preparedWord_options_permutation ai js now t idx w :
  sortPermutes js ->
  Permutation (optionSet ai now w) (options (preparedWord ai js now t idx w)).
Proof.
  intros Hs. cbn [options preparedWord]. apply Hs.
Qed.

Lemma count_occ_optionSet ai now w :
  count_occ string_dec (optionSet ai now w) (raw_translation w)
  = 1 + count_occ string_dec
          (distractorsOf ai now (raw_word w) (raw_translation w))
          (raw_translation w).
Proof.
  unfold optionSet. rewrite count_occ_app. cbn.
  destruct (string_dec (raw_translation w) (raw_translation w));
    [lia | congruence].
Qed.

Lemma NoDup_optionSet ai now w :
  NoDup (optionSet ai now w) <->
  NoDup (distractorsOf ai now (raw_word w) (raw_translation w))
  /\ ~ In (raw_translation w)
          (distractorsOf ai now (raw_word w) (raw_translation w)).
Proof.
  unfold optionSet. split.
  - intros H.
    apply (Permutation_NoDup (Permutation_sym (Permutation_cons_append _ _)))
      in H.
    inversion H; subst. tauto.
  - intros [Hn Hi].
    apply (Permutation_NoDup (Permutation_cons_append _ _)).
    now constructor.
Qed.

(** C4, as stated, fails: when the model's distractors repeat the
    translation or each other, the first question of the demo level carries
    the correct answer twice and another option twice. *)
Lemma options_duplicates_counterexample :
  exists p,
    nth_error
      (words (react (run demoService echoAI demoRuntime initialStore
                         (play []))))
      0 = Some p
    /\ correctAnswer p = "放弃"
    /\ options p = ["近义词"; "放弃"; "放弃"; "近义词"]
    /\ count_occ string_dec (options p) (correctAnswer p) = 2
    /\ count_occ string_dec (options p) "近义词" = 2.
Proof.
  vm_compute. eexists. repeat split.
Qed.

(** C4, as the code has it.  The options of a prepared question are the
    distractors the word source returned plus the translation, reordered and
    not deduplicated: the correct answer occurs once more than it occurs
    among the distractors, and the options are free of duplicates exactly
    when the distractors are pairwise distinct and differ from the
    translation.  In particular, with the placeholder distractors (the
    source failed) the answer occurs exactly once and no option repeats,
    unless the translation is itself one of the placeholder strings. *)
Theorem options_contain_answer_once_iff_distinct
  (ai : GenAI) (js : Runtime) (rawWords : list RawWord) (s : Store)
  (p : Word) :
  sortPermutes js ->
  In p match snd (prepareWords ai js rawWords s) with
       | Return prepared => prepared
       | Throw _ => []
       end ->
  exists w,
    In w (firstn 50 rawWords)
    /\ word p = raw_word w /\ correctAnswer p = raw_translation w
    /\ count_occ string_dec (options p) (correctAnswer p)
       = 1 + count_occ string_dec
               (distractorsOf ai (clock s) (word p) (correctAnswer p))
               (correctAnswer p)
    /\ (count_occ string_dec (options p) (correctAnswer p) = 1
        /\ NoDup (options p)
        <-> NoDup (distractorsOf ai (clock s) (word p) (correctAnswer p))
            /\ ~ In (correctAnswer p)
                    (distractorsOf ai (clock s) (word p) (correctAnswer p)))
    /\ (distractorsOf ai (clock s) (word p) (correctAnswer p)
        = placeholderDistractors ->
        ~ In (correctAnswer p) placeholderDistractors ->
        count_occ string_dec (options p) (correctAnswer p) = 1
        /\ NoDup (options p)).
Proof.
  intros Hs Hin.
  apply prepareWords_questions in Hin as (i & w & Hn & ->).
  exists w. cbn [word correctAnswer preparedWord].
  split; [eapply nth_error_In; eassumption |].
  split; [reflexivity |]. split; [reflexivity |].
  pose proof (preparedWord_options_permutation ai js (clock s) (clock s) i w
                Hs) as Hperm.
  assert (Hcount :
    count_occ string_dec
      (options (preparedWord ai js (clock s) (clock s) i w))
      (raw_translation w)
    = 1 + count_occ string_dec
            (distractorsOf ai (clock s) (raw_word w) (raw_translation w))
            (raw_translation w)).
  { rewrite <- count_occ_optionSet.
    symmetry. revert Hperm. generalize (optionSet ai (clock s) w).
    intros l Hperm.
    now apply (Permutation_count_occ string_dec). }
  assert (Hnodup :
    NoDup (options (preparedWord ai js (clock s) (clock s) i w))
    <-> NoDup (distractorsOf ai (clock s) (raw_word w) (raw_translation w))
        /\ ~ In (raw_translation w)
                (distractorsOf ai (clock s) (raw_word w)
                   (raw_translation w))).
  { rewrite <- NoDup_optionSet.
    split; apply Permutation_NoDup;
      [apply Permutation_sym |]; exact Hperm. }
  assert (Honce :
    NoDup (distractorsOf ai (clock s) (raw_word w) (raw_translation w))
    /\ ~ In (raw_translation w)
            (distractorsOf ai (clock s) (raw_word w) (raw_translation w)) ->
    count_occ string_dec
      (options (preparedWord ai js (clock s) (clock s) i w))
      (raw_translation w) = 1
    /\ NoDup (options (preparedWord ai js (clock s) (clock s) i w))).
  { intros [Hn' Hi']. split; [| apply Hnodup; tauto].
    rewrite Hcount.
    apply (count_occ_not_In string_dec) in Hi'. lia. }
  split; [exact Hcount |].
  split.
  - split; [intros [_ H]; now apply Hnodup | exact Honce].
  - intros Hph Hnot. apply Honce. rewrite Hph.
    split; [| exact Hnot].
    unfold placeholderDistractors.
    repeat constructor; cbn; intuition discriminate.
Qed.

Lemma abandonQuestion_prepared :
  In abandonQuestion
     match snd (prepareWords offlineAI demoRuntime mockLevel1
                  {| react := initialState; console := []; clock := 2000 |})
     with
     | Return prepared => prepared
     | Throw _ => []
     end.
Proof. vm_compute. left. reflexivity. Qed.

Lemma options_contain_answer_once_iff_distinct_witness :
  options abandonQuestion = ["错误选项2"; "放弃"; "错误选项1"; "错误选项3"]
  /\ exists w,
       In w (firstn 50 mockLevel1)
       /\ word abandonQuestion = raw_word w
       /\ correctAnswer abandonQuestion = raw_translation w
       /\ count_occ string_dec (options abandonQuestion)
                    (correctAnswer abandonQuestion)
          = 1 + count_occ string_dec
                  (distractorsOf offlineAI 2000 (word abandonQuestion)
                     (correctAnswer abandonQuestion))
                  (correctAnswer abandonQuestion).
Proof.
  split; [vm_compute; reflexivity |].
  destruct (options_contain_answer_once_iff_distinct offlineAI demoRuntime
              mockLevel1
              {| react := initialState; console := []; clock := 2000 |}
              abandonQuestion (insertionSort_permutes _)
              abandonQuestion_prepared)
    as (w & Hin & Hw & Hc & Hcount & _).
  exists w. repeat split; assumption.
Defined.

(** ** The order of the options *)

(** *** The orders of a list *)

Lemma list_eqb_eq l1 : forall l2, list_eqb l1 l2 = true <-> l1 = l2.
Proof.
  induction l1 as [|x r IH]; intros [|y r2]; cbn; split; intros H;
    try reflexivity; try discriminate.
  - apply andb_prop in H as [Hx Hr].
    apply String.eqb_eq in Hx. apply IH in Hr. congruence.
  - injection H as -> ->. rewrite String.eqb_refl. cbn. now apply IH.
Qed.

Lemma insertions_spec x l : forall l',
  In l' (insertions x l) <->
  exists l1 l2, l = l1 ++ l2 /\ l' = l1 ++ x :: l2.
Proof.
  induction l as [|y r IH]; intros l'; cbn [insertions].
  - split.
    + intros [<- | []]. now exists [], [].
    + intros (l1 & l2 & Hl & ->).
      destruct l1; [| discriminate]. destruct l2; [| discriminate].
      now left.
  - split.
    + intros [<- | H]; [now exists [], (y :: r) |].
      apply in_map_iff in H as (q & <- & Hq).
      apply IH in Hq as (l1 & l2 & -> & ->).
      now exists (y :: l1), l2.
    + intros (l1 & l2 & Hl & ->).
      destruct l1 as [|z l1]; cbn in Hl.
      * subst l2. now left.
      * injection Hl as <- ->. right.
        apply in_map_iff. exists (l1 ++ x :: l2). split; [reflexivity |].
        apply IH. now exists l1, l2.
Qed.

Lemma insertions_length x l :
  List.length (insertions x l) = S (List.length l).
Proof.
  induction l; cbn; [reflexivity | now rewrite length_map, IHl].
Qed.

Lemma permutations_sound l : forall l',
  In l' (permutations l) -> Permutation l l'.
Proof.
  induction l as [|x r IH]; intros l' H; cbn in H.
  - destruct H as [<- | []]. constructor.
  - apply in_flat_map in H as (q & Hq & Hl').
    apply insertions_spec in Hl' as (l1 & l2 & -> & ->).
    apply Permutation_cons_app. now apply IH.
Qed.

Lemma permutations_complete l : forall l',
  Permutation l l' -> In l' (permutations l).
Proof.
  induction l as [|x r IH]; intros l' H; cbn.
  - apply Permutation_nil in H. subst. now left.
  - assert (Hx : In x l')
      by (apply (Permutation_in _ H); now left).
    apply in_split in Hx as (l1 & l2 & ->).
    apply Permutation_cons_app_inv in H.
    apply in_flat_map. exists (l1 ++ l2). split; [now apply IH |].
    apply insertions_spec. now exists l1, l2.
Qed.

Lemma flat_map_constant_length {A B} (f : A -> list B) (c : nat) l :
  (forall a, In a l -> List.length (f a) = c) ->
  List.length (flat_map f l) = List.length l * c.
Proof.
  induction l as [|a l IH]; intros H; cbn; [reflexivity |].
  rewrite length_app, H, IH; [reflexivity | | now left].
  intros b Hb. apply H. now right.
Qed.

Lemma permutations_length l :
  List.length (permutations l) = fact (List.length l).
Proof.
  induction l as [|x r IH]; [reflexivity |].
  cbn [permutations List.length fact].
  rewrite (flat_map_constant_length _ (S (List.length r))).
  - rewrite IH. apply Nat.mul_comm.
  - intros q Hq. rewrite insertions_length.
    now rewrite (Permutation_length (permutations_sound _ _ Hq)).
Qed.

Lemma NoDup_map_cons (y : string) (ls : list (list string)) :
  NoDup ls -> NoDup (map (cons y) ls).
Proof.
  induction 1 as [|q ls Hq Hnd IH]; cbn; constructor; [| exact IH].
  intros H. apply in_map_iff in H as (q' & Heq & Hq').
  injection Heq as ->. contradiction.
Qed.

Lemma insertions_NoDup x l : ~ In x l -> NoDup (insertions x l).
Proof.
  induction l as [|y r IH]; intros Hx; cbn [insertions].
  - constructor; [intros [] | constructor].
  - constructor.
    + intros H. apply in_map_iff in H as (q & Heq & _).
      injection Heq as Hy _. apply Hx. now left.
    + apply NoDup_map_cons, IH. intros H. apply Hx. now right.
Qed.

Lemma insertions_remove x l l' :
  ~ In x l -> In l' (insertions x l) -> remove string_dec x l' = l.
Proof.
  intros Hx H. apply insertions_spec in H as (l1 & l2 & -> & ->).
  rewrite remove_app. cbn.
  destruct (string_dec x x) as [_ | Hne]; [| now elim Hne].
  rewrite !notin_remove; [reflexivity | |];
    intros H; apply Hx, in_or_app; auto.
Qed.

Lemma NoDup_app_disjoint {A} (l1 l2 : list A) :
  NoDup l1 -> NoDup l2 -> (forall a, In a l1 -> ~ In a l2) ->
  NoDup (l1 ++ l2).
Proof.
  induction 1 as [|a l1 Ha Hnd IH]; intros H2 Hd; cbn; [exact H2 |].
  constructor.
  - intros H. apply in_app_or in H as [H | H]; [contradiction |].
    apply (Hd a); [now left | exact H].
  - apply IH; [exact H2 |]. intros b Hb. apply Hd. now right.
Qed.

Lemma permutations_NoDup l : NoDup l -> NoDup (permutations l).
Proof.
  induction 1 as [|x r Hx Hnd IH]; cbn [permutations].
  - constructor; [intros [] | constructor].
  - assert (Hnot : forall q, In q (permutations r) -> ~ In x q).
    { intros q Hq H. apply Hx.
      apply (Permutation_in _ (Permutation_sym (permutations_sound _ _ Hq))).
      exact H. }
    revert IH Hnot. generalize (permutations r) as qs.
    induction qs as [|q qs IHqs]; intros Hqs Hnot; cbn; [constructor |].
    inversion Hqs as [|? ? Hq Hqs']; subst.
    apply NoDup_app_disjoint.
    + apply insertions_NoDup, Hnot. now left.
    + apply IHqs; [exact Hqs' |]. intros q' Hq'. apply Hnot. now right.
    + intros l' H1 H2. apply in_flat_map in H2 as (q' & Hq' & H2).
      apply Hq.
      rewrite <- (insertions_remove x q l') by (auto; apply Hnot; now left).
      rewrite (insertions_remove x q' l');
        [exact Hq' | apply Hnot; now right | exact H2].
Qed.

Lemma fact_multiple_of_3 n : 3 <= n -> exists m, fact n = 3 * m.
Proof.
  induction 1 as [|n Hn (m & IH)]; [now exists 2 |].
  exists (S n * m). cbn [fact]. rewrite IH. lia.
Qed.

(** *** Runs of coin flips *)

Lemma coinFlips_length n : List.length (coinFlips n) = 2 ^ n.
Proof.
  induction n; cbn [coinFlips]; [reflexivity |].
  rewrite length_app, !length_map, IHn. cbn. lia.
Qed.

Lemma pow2_not_multiple_of_3 n m : 2 ^ n <> 3 * m.
Proof.
  revert m. induction n as [|n IH]; intros m H; cbn in H; [lia |].
  assert (He : exists m', m = 2 * m').
  { destruct (Nat.Even_or_Odd m) as [[q Hq]|[q Hq]]; [now exists q | lia]. }
  destruct He as (m' & ->). apply (IH m'). lia.
Qed.

Lemma list_sum_cons (a : nat) (l : list nat) :
  list_sum (a :: l) = a + list_sum l.
Proof. reflexivity. Qed.

Lemma list_sum_const {A} (n : nat) (l : list A) :
  list_sum (map (fun _ => n) l) = List.length l * n.
Proof.
  induction l as [|a l IH]; [reflexivity |].
  cbn [map List.length Nat.mul]. now rewrite list_sum_cons, IH.
Qed.

Lemma list_sum_map_add {A} (f g : A -> nat) (l : list A) :
  list_sum (map (fun x => f x + g x) l)
  = list_sum (map f l) + list_sum (map g l).
Proof.
  induction l as [|a l IH]; [reflexivity |].
  cbn [map]. rewrite !list_sum_cons, IH. lia.
Qed.

Lemma one_order_matches (o : list string) : forall orders,
  NoDup orders -> In o orders ->
  list_sum (map (fun order => if list_eqb o order then 1 else 0) orders) = 1.
Proof.
  induction orders as [|x rest IH]; intros Hnd Hin; [contradiction |].
  inversion Hnd as [|? ? Hni Hnd']; subst. cbn [map].
  rewrite list_sum_cons.
  destruct (list_eqb o x) eqn:He.
  - apply list_eqb_eq in He. subst x.
    assert (Hz : map (fun order => if list_eqb o order then 1 else 0) rest
                 = map (fun _ => 0) rest).
    { apply map_ext_in. intros y Hy.
      destruct (list_eqb o y) eqn:He'; [| reflexivity].
      apply list_eqb_eq in He'. subst y. contradiction. }
    rewrite Hz, list_sum_const. lia.
  - destruct Hin as [-> | Hin].
    + rewrite (proj2 (list_eqb_eq _ _) eq_refl) in He. discriminate.
    + now rewrite IH.
Qed.

Lemma forallb_false_witness {A} (f : A -> bool) l :
  forallb f l = false -> exists x, In x l /\ f x = false.
Proof.
  induction l as [|a l IH]; cbn; [discriminate |].
  destruct (f a) eqn:Ha; cbn.
  - intros H. destruct (IH H) as (x & Hx & Hf). exists x. split; auto.
  - intros _. exists a. split; auto.
Qed.

(** *** No engine makes the comparator shuffle uniform

    A sort that decides by at most [k] fair coin flips reaches each order in
    a number of runs out of [2^k].  A list of [n >= 3] distinct options has
    [n!] orders, a multiple of 3, and no multiple of 3 divides a power of
    two into equal parts. *)

Section AnyEngine.

Variable l : list string.
Variable out : list bool -> list string.
Variable k : nat.
Hypothesis l_distinct : NoDup l.
Hypothesis l_three : 3 <= List.length l.
Hypothesis out_permutes : forall flips, Permutation l (out flips).

Lemma waysIn_cons flips rest order :
  waysIn out (flips :: rest) order
  = (if list_eqb (out flips) order then 1 else 0) + waysIn out rest order.
Proof.
  unfold waysIn. cbn [filter].
  now destruct (list_eqb (out flips) order).
Qed.

Lemma ways_sum (orders : list (list string)) :
  NoDup orders ->
  (forall flips, In (out flips) orders) ->
  forall runs, list_sum (map (waysIn out runs) orders) = List.length runs.
Proof.
  intros Hnd Hall runs.
  induction runs as [|flips rest IH].
  - unfold waysIn. cbn [filter List.length].
    rewrite list_sum_const. apply Nat.mul_0_r.
  - rewrite (map_ext _ _ (waysIn_cons flips rest)).
    rewrite list_sum_map_add, IH, one_order_matches; auto.
Qed.

Lemma comparator_shuffle_never_uniform :
  ~ exists n, forall order,
        Permutation l order -> waysIn out (coinFlips k) order = n.
Proof.
  intros (n & Hn).
  pose proof (ways_sum (permutations l) (permutations_NoDup l l_distinct)
                (fun flips => permutations_complete _ _ (out_permutes flips))
                (coinFlips k)) as Hsum.
  rewrite coinFlips_length in Hsum.
  assert (Hall : map (waysIn out (coinFlips k)) (permutations l)
                 = map (fun _ => n) (permutations l))
    by (apply map_ext_in; intros order Hin;
        apply Hn, permutations_sound, Hin).
  rewrite Hall, list_sum_const, permutations_length in Hsum.
  destruct (fact_multiple_of_3 _ l_three) as (m & Hm).
  rewrite Hm in Hsum.
  apply (pow2_not_multiple_of_3 k (m * n)). lia.
Qed.

(** Two orders that are not equally likely can be named. *)
Lemma two_orders_differ :
  exists o1 o2,
    Permutation l o1 /\ Permutation l o2
    /\ waysIn out (coinFlips k) o1 <> waysIn out (coinFlips k) o2.
Proof.
  destruct (forallb (fun o => waysIn out (coinFlips k) o
                              =? waysIn out (coinFlips k) l)
                    (permutations l)) eqn:Hall.
  - exfalso. apply comparator_shuffle_never_uniform.
    exists (waysIn out (coinFlips k) l). intros order Ho.
    rewrite forallb_forall in Hall.
    apply Nat.eqb_eq, Hall, permutations_complete, Ho.
  - apply forallb_false_witness in Hall as (o & Ho & Hne).
    apply Nat.eqb_neq in Hne.
    exists o, l. split; [now apply permutations_sound |].
    split; [apply Permutation_refl | exact Hne].
Qed.

End AnyEngine.

Lemma withFlips_permutes js flips :
  sortPermutes js -> sortPermutes (withFlips js flips).
Proof. intros H c l. apply H. Qed.

(** Whatever the engine, a question with at least three distinct options
    has two orders that are not equally likely. *)
Lemma shuffledOptions_not_uniform ai js now w k :
  sortPermutes js ->
  NoDup (optionSet ai now w) -> 3 <= List.length (optionSet ai now w) ->
  exists o1 o2,
    Permutation (optionSet ai now w) o1 /\ Permutation (optionSet ai now w) o2
    /\ waysOf ai js now w k o1 <> waysOf ai js now w k o2.
Proof.
  intros Hjs Hnd H3. unfold waysOf.
  apply two_orders_differ; [exact Hnd | exact H3 |].
  intros flips. unfold shuffledOptions.
  apply preparedWord_options_permutation, withFlips_permutes, Hjs.
Qed.

(** C9, as stated, fails.  The first question of the demo level, when the
    model is unreachable, has the four distinct options below; whatever
    algorithm the engine sorts with and however many fair coin flips [k] it
    may consume, two of their orders come out in different numbers of the
    [2^k] equally likely runs. *)
Lemma shuffle_not_uniform_counterexample :
  optionSet offlineAI 2000 (mkRaw "abandon" "放弃") = fourOptions
  /\ NoDup fourOptions
  /\ (forall (js : Runtime) (k : nat),
        sortPermutes js ->
        exists o1 o2,
          Permutation fourOptions o1 /\ Permutation fourOptions o2
          /\ waysOf offlineAI js 2000 (mkRaw "abandon" "放弃") k o1
             <> waysOf offlineAI js 2000 (mkRaw "abandon" "放弃") k o2).
Proof.
  assert (Hnd : NoDup fourOptions)
    by (unfold fourOptions; repeat constructor; cbn; intuition discriminate).
  split; [reflexivity |]. split; [exact Hnd |].
  intros js k Hjs.
  apply (shuffledOptions_not_uniform offlineAI js 2000
           (mkRaw "abandon" "放弃") k Hjs Hnd).
  cbn. lia.
Qed.

(** C9, as the code has it.  Whatever numbers [Math.random] returns, the
    options of every prepared question are a permutation of the list built
    for it, the distractors followed by the correct translation.  The
    permutations are not equally likely: whenever that list has at least
    three entries, all distinct (as with three distractors that differ from
    each other and from the translation), then for every engine and every
    number [k] of fair coin flips the comparator may consume, two orders of
    the list come out in different numbers of the [2^k] equally likely
    runs. *)
Theorem options_permuted_but_not_uniformly
  (ai : GenAI) (js : Runtime) (rawWords : list RawWord) (s : Store)
  (p : Word) :
  sortPermutes js ->
  In p match snd (prepareWords ai js rawWords s) with
       | Return prepared => prepared
       | Throw _ => []
       end ->
  Permutation
    (distractorsOf ai (clock s) (word p) (correctAnswer p)
     ++ [correctAnswer p])
    (options p)
  /\ List.length (options p)
     = List.length (distractorsOf ai (clock s) (word p) (correctAnswer p)) + 1
  /\ (forall option,
        In option (options p) <->
        option = correctAnswer p
        \/ In option (distractorsOf ai (clock s) (word p) (correctAnswer p)))
  /\ (NoDup (options p) -> 3 <= List.length (options p) ->
      forall k,
      exists o1 o2,
        Permutation (options p) o1 /\ Permutation (options p) o2
        /\ waysOf ai js (clock s) (mkRaw (word p) (correctAnswer p)) k o1
           <> waysOf ai js (clock s) (mkRaw (word p) (correctAnswer p)) k o2).
Proof.
  intros Hs Hin.
  apply prepareWords_questions in Hin as (i & w & Hn & ->).
  pose proof (preparedWord_options_permutation ai js (clock s) (clock s) i w
                Hs) as Hperm.
  destruct w as [wd tr].
  cbn [word correctAnswer preparedWord raw_word raw_translation] in *.
  set (opts := options (preparedWord ai js (clock s) (clock s) i
                          (mkRaw wd tr))) in *.
  unfold optionSet in Hperm. cbn [raw_word raw_translation] in Hperm.
  split; [exact Hperm |].
  split; [rewrite <- (Permutation_length Hperm), length_app; reflexivity |].
  split.
  - intros option. split.
    + intros H. apply (Permutation_in _ (Permutation_sym Hperm)) in H.
      apply in_app_or in H as [H | [H | []]]; [right | left]; auto.
    + intros H. apply (Permutation_in _ Hperm).
      apply in_or_app. destruct H as [-> | H]; [right; now left | now left].
  - intros Hnd H3 k.
    destruct (shuffledOptions_not_uniform ai js (clock s) (mkRaw wd tr) k Hs)
      as (o1 & o2 & H1 & H2 & Hne).
    + apply (Permutation_NoDup (Permutation_sym Hperm)), Hnd.
    + unfold optionSet. cbn [raw_word raw_translation].
      now rewrite (Permutation_length Hperm).
    + exists o1, o2.
      unfold optionSet in H1, H2. cbn [raw_word raw_translation] in H1, H2.
      split; [eapply perm_trans; [apply Permutation_sym, Hperm | exact H1] |].
      split; [eapply perm_trans; [apply Permutation_sym, Hperm | exact H2] |].
      exact Hne.
Qed.

Lemma options_permuted_but_not_uniformly_witness :
  Permutation
    (distractorsOf offlineAI 2000 (word abandonQuestion)
                   (correctAnswer abandonQuestion)
     ++ [correctAnswer abandonQuestion])
    (options abandonQuestion)
  /\ (NoDup (options abandonQuestion) ->
      3 <= List.length (options abandonQuestion) ->
      forall k,
      exists o1 o2,
        Permutation (options abandonQuestion) o1
        /\ Permutation (options abandonQuestion) o2
        /\ waysOf offlineAI demoRuntime 2000
             (mkRaw (word abandonQuestion) (correctAnswer abandonQuestion))
             k o1
           <> waysOf offlineAI demoRuntime 2000
                (mkRaw (word abandonQuestion)
                   (correctAnswer abandonQuestion))
                k o2).
Proof.
  destruct (options_permuted_but_not_uniformly offlineAI demoRuntime
              mockLevel1
              {| react := initialState; console := []; clock := 2000 |}
              abandonQuestion (insertionSort_permutes _)
              abandonQuestion_prepared)
    as (H1 & _ & _ & H4).
  split; [exact H1 | exact H4].
Defined.

(** * Further properties of the code *)

(** ** utils.ts: the rendering of a duration *)

Lemma secondsField_upto_60 : forallb secondsFieldOK (seq 0 60) = true.
Proof. vm_compute. reflexivity. Qed.

Lemma secondsField_twoDigits r :
  (0 <= r < 60)%Z -> padStart2 (toString r) = twoDigits (Z.to_nat r).
Proof.
  intros Hr.
  pose proof secondsField_upto_60 as H. rewrite forallb_forall in H.
  specialize (H (Z.to_nat r)).
  assert (Hin : In (Z.to_nat r) (seq 0 60)) by (apply in_seq; lia).
  specialize (H Hin). unfold secondsFieldOK in H.
  rewrite Z2Nat.id in H by lia. now apply String.eqb_eq in H.
Qed.

(** X1.  For a duration of [ms] milliseconds, [0 <= ms < 2^53] (the safe
    integers, on which the binary64 arithmetic of the code is exact),
    [formatDuration] renders the whole minutes [ms / 60000] in decimal (with
    no cap and no hours field), a colon, and the remaining whole seconds
    [(ms / 1000) mod 60] as exactly two decimal digits; the milliseconds
    below a second do not show. *)
Theorem formatDuration_minutes_seconds (ms : Z) :
  (0 <= ms < 2 ^ 53)%Z ->
  formatDuration ms
  = (toString (ms / 60000) ++ ":"
     ++ twoDigits (Z.to_nat ((ms / 1000) mod 60)))%string
  /\ formatDuration ms = formatDuration (1000 * (ms / 1000)).
Proof.
  intros [Hms _].
  assert (Hsec : (0 <= ms / 1000)%Z) by (apply Z.div_pos; lia).
  assert (Hfmt : forall x, (0 <= x)%Z ->
            formatDuration x
            = (toString (x / 60000) ++ ":"
               ++ twoDigits (Z.to_nat ((x / 1000) mod 60)))%string).
  { intros x Hx. unfold formatDuration.
    assert (Hs : (0 <= x / 1000)%Z) by (apply Z.div_pos; lia).
    rewrite Z.rem_mod_nonneg by lia.
    rewrite secondsField_twoDigits by (apply Z.mod_pos_bound; lia).
    rewrite Z.div_div by lia. reflexivity. }
  split; [apply Hfmt, Hms |].
  rewrite (Hfmt ms Hms), (Hfmt (1000 * (ms / 1000))%Z) by lia.
  replace (1000 * (ms / 1000) / 1000)%Z with (ms / 1000)%Z
    by (rewrite Z.mul_comm, Z.div_mul; lia).
  assert (Hmin : forall y, (y / 60000 = y / 1000 / 60)%Z)
    by (intros y; change 60000%Z with (1000 * 60)%Z;
        now rewrite Z.div_div by lia).
  rewrite (Hmin ms), (Hmin (1000 * (ms / 1000))%Z).
  now rewrite (Z.mul_comm 1000), Z.div_mul by lia.
Qed.

Lemma formatDuration_minutes_seconds_witness :
  formatDuration 3725999 = "62:05"%string
  /\ formatDuration 3725999
     = (toString (3725999 / 60000) ++ ":"
        ++ twoDigits (Z.to_nat ((3725999 / 1000) mod 60)))%string
  /\ formatDuration 3725999 = formatDuration (1000 * (3725999 / 1000)).
Proof.
  split; [reflexivity |].
  apply (formatDuration_minutes_seconds 3725999). lia.
Defined.

(** ** utils.ts: the pronunciation button *)

(** X2.  However often and on whatever words the pronunciation button is
    pressed, and whatever was queued before, the speech queue afterwards
    holds exactly one utterance, that of the last non-empty word, in
    American English at rate 0.9: presses never pile up.  Presses on the
    empty string do nothing; if every press was one, the queue is as it
    was. *)
Theorem playWord_queue_holds_last_word (pressed : list string)
  (q : SpeechQueue) :
  playAll pressed q
  = match lastNonEmpty pressed with
    | Some word => [spoken word]
    | None => q
    end.
Proof.
  induction pressed as [|word rest IH] using rev_ind; [reflexivity |].
  unfold playAll, lastNonEmpty in *.
  rewrite fold_left_app, rev_app_distr. cbn [fold_left rev app find].
  rewrite IH. unfold playWord, nonEmpty.
  destruct (String.length word =? 0); reflexivity.
Qed.

(** ** geminiService.ts and step 2 of [startLevel]: failing distractor
    requests *)

Lemma generateDistractors_console ai word translation s :
  generateDistractors ai word translation s
  = ({| react := react s;
        console := console s
                   ++ distractorErrors ai (clock s) [mkRaw word translation];
        clock := clock s |},
     Return (distractorsOf ai (clock s) word translation)).
Proof.
  unfold generateDistractors, distractorsOf, distractorErrors, try_catch,
    bind, Date_now, liftResult, ret. cbn [flat_map raw_word raw_translation].
  destruct s as [a con clk]; cbn [react console clock].
  destruct (reply_distractors ai clk word translation); cbn;
    now rewrite ?app_nil_r.
Qed.

Lemma prepareFrom_console ai js t l : forall idx s,
  prepareFrom ai js t idx l s
  = ({| react := react s;
        console := console s ++ distractorErrors ai (clock s) l;
        clock := clock s |},
     Return (preparedFrom ai js (clock s) t idx l)).
Proof.
  induction l as [|w rest IH]; intros idx s;
    cbn [prepareFrom preparedFrom].
  - unfold ret, distractorErrors. cbn. rewrite app_nil_r. now destruct s.
  - unfold prepareWord.
    rewrite (bind_Return _ _ _ _ _
               (bind_Return _ _ _ _ _
                  (generateDistractors_console ai (raw_word w)
                     (raw_translation w) s))).
    unfold ret at 1.
    rewrite (bind_Return _ _ _ _ _ (IH (S idx) _)).
    unfold ret. cbn [react console clock].
    unfold distractorErrors. cbn [flat_map].
    rewrite app_nil_r, <- app_assoc. reflexivity.
Qed.

Lemma prepareWord_console ai js t idx w s :
  prepareWord ai js t idx w s
  = ({| react := react s;
        console := console s ++ distractorErrors ai (clock s) [w];
        clock := clock s |},
     Return (preparedWord ai js (clock s) t idx w)).
Proof.
  unfold prepareWord.
  rewrite (bind_Return _ _ _ _ _
             (generateDistractors_console ai (raw_word w)
                (raw_translation w) s)).
  reflexivity.
Qed.

Lemma resumeAll_console ai js t l order : forall s,
  resumeAll ai js t l order s
  = ({| react := react s;
        console := console s ++ flat_map (errorsAt ai (clock s) l) order;
        clock := clock s |},
     Return
       (flat_map
          (fun idx =>
             match nth_error l idx with
             | Some w => [(idx, preparedWord ai js (clock s) t idx w)]
             | None => []
             end)
          order)).
Proof.
  induction order as [|idx rest IH]; intros s; cbn [resumeAll flat_map].
  - unfold ret. rewrite app_nil_r. now destruct s.
  - unfold errorsAt at 1.
    destruct (nth_error l idx) as [w|].
    + rewrite (bind_Return _ _ _ _ _ (prepareWord_console ai js t idx w s)).
      rewrite (bind_Return _ _ _ _ _ (IH _)).
      unfold ret. cbn [react console clock app].
      now rewrite <- app_assoc.
    + apply IH.
Qed.

Lemma errorsAt_seq ai now l : forall pre,
  flat_map (errorsAt ai now (pre ++ l)) (seq (List.length pre) (List.length l))
  = distractorErrors ai now l.
Proof.
  induction l as [|w rest IH]; intros pre; [reflexivity |].
  cbn [List.length seq flat_map].
  unfold errorsAt at 1.
  rewrite nth_error_app2, Nat.sub_diag by lia. cbn [nth_error].
  specialize (IH (pre ++ [w])).
  rewrite <- app_assoc, length_app, Nat.add_comm in IH. cbn in IH.
  rewrite IH. unfold distractorErrors. cbn [flat_map].
  now rewrite app_nil_r.
Qed.

Lemma preparedFrom_seq ai js now t l : forall pre,
  flat_map
    (fun idx =>
       match nth_error (pre ++ l) idx with
       | Some w => [preparedWord ai js now t idx w]
       | None => []
       end)
    (seq (List.length pre) (List.length l))
  = preparedFrom ai js now t (List.length pre) l.
Proof.
  induction l as [|w rest IH]; intros pre; [reflexivity |].
  cbn [List.length seq flat_map preparedFrom].
  rewrite nth_error_app2, Nat.sub_diag by lia. cbn [nth_error app].
  specialize (IH (pre ++ [w])).
  rewrite <- app_assoc, length_app, Nat.add_comm in IH. cbn in IH.
  now rewrite IH.
Qed.

Lemma find_resumed ai js now t l i w : forall order,
  In i order -> nth_error l i = Some w ->
  find (fun q => fst q =? i)
       (flat_map
          (fun idx =>
             match nth_error l idx with
             | Some w => [(idx, preparedWord ai js now t idx w)]
             | None => []
             end)
          order)
  = Some (i, preparedWord ai js now t i w).
Proof.
  induction order as [|j rest IH]; intros Hin Hw; [contradiction |].
  cbn [flat_map].
  destruct (Nat.eq_dec j i) as [-> | Hne].
  - rewrite Hw. cbn. now rewrite Nat.eqb_refl.
  - destruct Hin as [Hj | Hin]; [contradiction |].
    destruct (nth_error l j) as [wj|]; cbn [app find fst].
    + apply Nat.eqb_neq in Hne. rewrite Hne. now apply IH.
    + now apply IH.
Qed.

Lemma flat_map_agree {A B} (f g : A -> list B) (l : list A) :
  (forall a, In a l -> f a = g a) -> flat_map f l = flat_map g l.
Proof.
  induction l as [|a l IH]; intros H; [reflexivity |].
  cbn [flat_map]. rewrite (H a) by now left.
  rewrite IH; [reflexivity |]. intros b Hb. apply H. now right.
Qed.

Lemma resultsByPosition_resumed ai js now t l order :
  completionOrder (List.length l) order ->
  resultsByPosition (List.length l)
    (flat_map
       (fun idx =>
          match nth_error l idx with
          | Some w => [(idx, preparedWord ai js now t idx w)]
          | None => []
          end)
       order)
  = preparedFrom ai js now t 0 l.
Proof.
  intros Hperm. unfold resultsByPosition.
  pose proof (preparedFrom_seq ai js now t l []) as Hseq.
  cbn [List.length app] in Hseq. rewrite <- Hseq.
  apply flat_map_agree. intros i Hi.
  assert (Hlt : i < List.length l) by (apply in_seq in Hi; lia).
  destruct (nth_error l i) as [w|] eqn:Hw;
    [| apply nth_error_None in Hw; lia].
  rewrite (find_resumed ai js now t l i w order);
    [reflexivity | apply (Permutation_in _ Hperm Hi) | exact Hw].
Qed.

(** X3.  In whatever order the distractor requests complete, and whether
    the model rejects a request, answers what does not parse or answers an
    array of strings, preparing the questions does not fail: it returns one
    question per raw pair of the first 50, in the order of the words and the
    same as when the requests complete in that order (the numbers
    [Math.random] returns for each word being what they are), leaves the
    state of the component alone, and writes to the console one "Error
    generating distractors:" line per word whose request failed, in the
    order of completion.  A word whose request failed gets the three
    placeholder distractors before its options are ordered. *)
Theorem prepareWords_tolerates_failing_model
  (ai : GenAI) (js : Runtime) (rawWords : list RawWord) (s : Store)
  (order : list nat) :
  completionOrder (List.length (firstn 50 rawWords)) order ->
  exists prepared lines,
    prepareWordsIn ai js order rawWords s
    = ({| react := react s; console := console s ++ lines;
          clock := clock s |},
       Return prepared)
    /\ lines = flat_map (errorsAt ai (clock s) (firstn 50 rawWords)) order
    /\ Permutation (distractorErrors ai (clock s) (firstn 50 rawWords)) lines
    /\ prepareWords ai js rawWords s
       = ({| react := react s;
             console := console s
                        ++ distractorErrors ai (clock s) (firstn 50 rawWords);
             clock := clock s |},
          Return prepared)
    /\ List.length prepared = List.length (firstn 50 rawWords)
    /\ (forall i w e,
          nth_error (firstn 50 rawWords) i = Some w ->
          reply_distractors ai (clock s) (raw_word w) (raw_translation w)
          = Throw e ->
          exists p,
            nth_error prepared i = Some p
            /\ options p
               = array_sort js
                   (fun k => (math_random js (clock s) i k - 0.5)%float)
                   (placeholderDistractors ++ [raw_translation w])).
Proof.
  intros Hord.
  exists (preparedFrom ai js (clock s) (clock s) 0 (firstn 50 rawWords)).
  exists (flat_map (errorsAt ai (clock s) (firstn 50 rawWords)) order).
  split; [| split; [| split; [| split; [| split]]]].
  - unfold prepareWordsIn, bind at 1, Date_now.
    rewrite (bind_Return _ _ _ _ _ (resumeAll_console ai js _ _ order s)).
    unfold ret. cbn [react console clock].
    now rewrite resultsByPosition_resumed.
  - reflexivity.
  - pose proof (errorsAt_seq ai (clock s) (firstn 50 rawWords) []) as Hseq.
    cbn [List.length app] in Hseq. rewrite <- Hseq.
    apply Permutation_flat_map. exact Hord.
  - unfold prepareWords, bind, Date_now. apply prepareFrom_console.
  - apply preparedFrom_length.
  - intros i w e Hn He.
    exists (preparedWord ai js (clock s) (clock s) i w).
    split; [apply (preparedFrom_nth ai js _ _ _ 0 i w Hn) |].
    cbn [options preparedWord]. unfold optionSet, distractorsOf.
    now rewrite He.
Qed.

Lemma prepareWords_tolerates_failing_model_witness :
  completionOrder (List.length (firstn 50 mockLevel1))
                  [9; 0; 8; 1; 7; 2; 6; 3; 5; 4]
  /\ exists prepared lines,
       prepareWordsIn offlineAI demoRuntime [9; 0; 8; 1; 7; 2; 6; 3; 5; 4]
         mockLevel1 initialStore
       = ({| react := initialState; console := lines; clock := 0 |},
          Return prepared)
       /\ List.length lines = 10
       /\ List.length prepared = 10.
Proof.
  assert (Hord : completionOrder (List.length (firstn 50 mockLevel1))
                   [9; 0; 8; 1; 7; 2; 6; 3; 5; 4]).
  { unfold completionOrder. cbn [mockLevel1 MOCK_WORDS firstn List.length seq].
    apply (Permutation_trans (l' := [9; 0; 1; 2; 3; 4; 5; 6; 7; 8])).
    - change [0; 1; 2; 3; 4; 5; 6; 7; 8; 9]
        with ([0; 1; 2; 3; 4; 5; 6; 7; 8] ++ [9]).
      apply Permutation_sym, Permutation_cons_append.
    - apply perm_skip, perm_skip.
      apply (Permutation_trans (l' := [8; 1; 2; 3; 4; 5; 6; 7])).
      + change [1; 2; 3; 4; 5; 6; 7; 8]
          with ([1; 2; 3; 4; 5; 6; 7] ++ [8]).
        apply Permutation_sym, Permutation_cons_append.
      + apply perm_skip, perm_skip.
        apply (Permutation_trans (l' := [7; 2; 3; 4; 5; 6])).
        * change [2; 3; 4; 5; 6; 7] with ([2; 3; 4; 5; 6] ++ [7]).
          apply Permutation_sym, Permutation_cons_append.
        * apply perm_skip, perm_skip.
          apply (Permutation_trans (l' := [6; 3; 4; 5])).
          -- change [3; 4; 5; 6] with ([3; 4; 5] ++ [6]).
             apply Permutation_sym, Permutation_cons_append.
          -- apply perm_skip, perm_skip. apply perm_swap. }
  split; [exact Hord |].
  destruct (prepareWords_tolerates_failing_model offlineAI demoRuntime
              mockLevel1 initialStore [9; 0; 8; 1; 7; 2; 6; 3; 5; 4] Hord)
    as (prepared & lines & Hrun & Hlines & _ & _ & Hlen & _).
  exists prepared, lines.
  split; [exact Hrun |].
  split; [rewrite Hlines; vm_compute; reflexivity |].
  rewrite Hlen. reflexivity.
Defined.

(** ** sheetsService.ts and step 1 of [startLevel]: where the words come
    from *)

Lemma rawWordsOf_GoogleSheetsService sheetId ai level t :
  rawWordsOf (GoogleSheetsService sheetId) ai level t
  = match MOCK_WORDS level with
    | Some mock => Return mock
    | None => reply_words ai t level
    end.
Proof.
  unfold rawWordsOf, GoogleSheetsService. cbn [fetchLevelWords].
  destruct (String.length sheetId =? 0); reflexivity.
Qed.

(** X4.  The sheet id configures nothing but a warning: with the sheets
    service of the repository, whatever its sheet id, the raw words of a
    level are the built-in list when the level has one (only level 1 has,
    with ten words) and otherwise exactly what the generative model
    answers, a failure of the model included; two services that differ in
    their sheet id load the same state. *)
Theorem words_come_from_mock_or_model
  (sheetId sheetId' : string) (ai : GenAI) (js : Runtime) (level : nat)
  (s : Store) :
  snd (fetchRawWords (GoogleSheetsService sheetId) ai level s)
  = match MOCK_WORDS level with
    | Some mock => Return mock
    | None => reply_words ai (clock s) level
    end
  /\ (exists mock, MOCK_WORDS 1 = Some mock /\ List.length mock = 10)
  /\ (level <> 1 -> MOCK_WORDS level = None)
  /\ react (fst (startLevel (GoogleSheetsService sheetId) ai js level s))
     = react (fst (startLevel (GoogleSheetsService sheetId') ai js level s)).
Proof.
  split; [| split; [| split]].
  - destruct (fetchRawWords_run (GoogleSheetsService sheetId) ai level s)
      as (s' & -> & _).
    apply rawWordsOf_GoogleSheetsService.
  - eexists. split; reflexivity.
  - intros Hl. destruct level as [|[|level]]; [reflexivity | | reflexivity].
    now elim Hl.
  - destruct (startLevel_run (GoogleSheetsService sheetId) ai js level s)
      as (lines & -> & _).
    destruct (startLevel_run (GoogleSheetsService sheetId') ai js level s)
      as (lines' & -> & _).
    cbn [fst react]. unfold startedState.
    now rewrite !rawWordsOf_GoogleSheetsService.
Qed.

(** ** [startLevel]: try, catch, finally *)

(** X5.  With replies of the declared types (an array of strings for the
    distractors, an array of pairs for the words), [startLevel] never throws
    and never leaves the spinner on.  If obtaining the raw words throws, the
    failure is the last line written to the console and the session cells
    (game state, words, position, answers, start time) are exactly as
    before; if it succeeds the session is replaced as a whole: the game is
    [PLAYING] at position 0 with no answer, there are [min(len, 50)] words,
    and the start time is the reading of [Date.now()] that [startLevel]
    takes once the words are prepared, the clock of its run (not the time
    of the click, which the code never reads).  In both cases the player
    id, the current level and the unlocked level keep their values. *)
Theorem startLevel_resets_or_keeps_session
  (sheetsService : SheetsService) (ai : GenAI) (js : Runtime) (level : nat)
  (s : Store) :
  let a := react s in
  let s' := fst (startLevel sheetsService ai js level s) in
  let a' := react s' in
  snd (startLevel sheetsService ai js level s) = Return tt
  /\ isLoading a' = false
  /\ playerId a' = playerId a /\ currentLevel a' = currentLevel a
  /\ unlockedLevel a' = unlockedLevel a
  /\ (forall e,
        snd (fetchRawWords sheetsService ai level s) = Throw e ->
        gameState a' = gameState a /\ words a' = words a
        /\ currentIndex a' = currentIndex a
        /\ userAnswers a' = userAnswers a /\ startTime a' = startTime a
        /\ last (console s') (ConsoleWarn EmptyString)
           = ConsoleError "Failed to start level:" e)
  /\ (forall rawWords,
        snd (fetchRawWords sheetsService ai level s) = Return rawWords ->
        gameState a' = PLAYING /\ currentIndex a' = 0 /\ userAnswers a' = []
        /\ startTime a' = clock s
        /\ List.length (words a') = Nat.min (List.length rawWords) 50).
Proof.
  intros a s' a'. subst a a' s'.
  destruct (fetchRawWords_run sheetsService ai level s) as (s1 & Hf & _).
  rewrite Hf. cbn [snd].
  destruct (startLevel_run sheetsService ai js level s) as (lines & Hs & Hl).
  rewrite Hs. cbn [fst snd react console]. unfold startedState.
  split; [reflexivity |].
  destruct (rawWordsOf sheetsService ai level (clock s)) as [raws | e0].
  - unfold loaded.
    cbn [isLoading playerId currentLevel unlockedLevel gameState words
         currentIndex userAnswers startTime].
    do 4 (split; [reflexivity |]).
    split; [intros e H; discriminate |].
    intros rawWords H. injection H as <-.
    do 4 (split; [reflexivity |]).
    rewrite preparedFrom_length, length_firstn. apply Nat.min_comm.
  - cbn. do 4 (split; [reflexivity |]).
    split; [| intros rawWords H; discriminate].
    intros e H. injection H as <-.
    do 5 (split; [reflexivity |]).
    destruct (Hl e0 eq_refl) as (before & ->).
    rewrite app_assoc. apply last_last.
Qed.

(** ** The interface: levels and the player id *)

Lemma shows_true a g :
  shows a g = true -> gameState a = g /\ isLoading a = false.
Proof.
  unfold shows. intros H. apply andb_prop in H as [Hl Hg].
  apply negb_true_iff in Hl.
  destruct (gameState a), g; try discriminate; now split.
Qed.

(** What an answer leaves of the cells it does not own. *)
Lemma handleAnswer_frame sheetsService snap selected w s :
  nth_error (words snap) (currentIndex snap) = Some w ->
  let a := react s in
  let a' := react (fst (handleAnswer sheetsService snap selected s)) in
  playerId a' = playerId a /\ currentLevel a' = currentLevel a
  /\ words a' = words a /\ startTime a' = startTime a
  /\ isLoading a' = isLoading a
  /\ userAnswers a' = userAnswers a ++ [answerEntry w selected]
  /\ (gameState a' = gameState a \/ gameState a' = RESULT).
Proof.
  intros Hw. rewrite (handleAnswer_run _ _ _ w _ Hw).
  destruct (currentIndex snap + 1 <? List.length (words snap)).
  - cbn. repeat split; now left.
  - rewrite finishLevel_run. cbn [fst react withStore clock].
    destruct (saveOutcome _ _ _); unfold unlockNext;
      destruct (advances snap); cbn; repeat split; auto.
Qed.

Lemma startedState_frame sheetsService ai js level a t :
  let a' := startedState sheetsService ai js level a t in
  playerId a' = playerId a /\ currentLevel a' = currentLevel a
  /\ (gameState a' = PLAYING \/ gameState a' = gameState a).
Proof.
  unfold startedState.
  destruct (rawWordsOf sheetsService ai level t); cbn; repeat split; auto.
Qed.

Section Levels.

Variable sheetsService : SheetsService.
Variable ai : GenAI.
Variable js : Runtime.

Lemma levelInv_startLevel level s :
  1 <= currentLevel (react s) <= 10 ->
  nonEmpty (playerId (react s)) = true ->
  levelInv (react (fst (startLevel sheetsService ai js level s))).
Proof.
  intros Hl Hp.
  destruct (startLevel_run sheetsService ai js level s) as (lines & -> & _).
  cbn [fst react].
  destruct (startedState_frame sheetsService ai js level (react s) (clock s))
    as (Hid & Hlev & _).
  unfold levelInv. rewrite Hid, Hlev. split; [exact Hl | intros _; exact Hp].
Qed.

Lemma levelInv_dispatch t ev s :
  levelInv (react s) ->
  levelInv (react (fst (dispatch sheetsService ai js t ev s))).
Proof.
  intros [Hl Hp]. unfold dispatch.
  destruct (enabled (react s) ev) eqn:Hen; [| now split].
  destruct ev; cbn [handler]; cbn [enabled] in Hen.
  - apply shows_true in Hen as [Hg _].
    unfold levelInv; cbn. split; [exact Hl | congruence].
  - repeat (apply andb_prop in Hen as [Hen ?]).
    unfold bind; cbn [setCurrentLevel setState].
    apply levelInv_startLevel; cbn; [| assumption].
    split; now apply Nat.leb_le.
  - apply andb_prop in Hen as [_ Hne].
    now apply levelInv_startLevel.
  - apply andb_prop in Hen as [Hs Hw]. apply shows_true in Hs as [Hg _].
    destruct (nth_error (words (react s)) (currentIndex (react s)))
      as [w|] eqn:Hnth; [| discriminate].
    destruct (handleAnswer_frame sheetsService (react s) option w
                {| react := react s; console := console s; clock := t |}
                Hnth) as (Hid & Hlev & _).
    cbn [react] in Hid, Hlev.
    unfold levelInv. rewrite Hid, Hlev.
    split; [exact Hl | intros _; apply Hp; congruence].
  - apply shows_true in Hen as [Hg _].
    unfold levelInv; cbn. split; [exact Hl | congruence].
  - apply shows_true in Hen as [Hg _].
    apply levelInv_startLevel; [exact Hl | apply Hp; congruence].
  - apply andb_prop in Hen as [Hen Hlt]. apply andb_prop in Hen as [Hs _].
    apply shows_true in Hs as [Hg _]. apply Nat.ltb_lt in Hlt.
    unfold bind; cbn [setCurrentLevel setState].
    apply levelInv_startLevel; cbn; [lia | apply Hp; congruence].
Qed.

Lemma levelInv_run trace : forall s,
  levelInv (react s) ->
  levelInv (react (run sheetsService ai js s trace)).
Proof.
  induction trace as [|[t ev] rest IH]; intros s Hs; [exact Hs |].
  cbn [run fold_left]. apply IH. now apply levelInv_dispatch.
Qed.

End Levels.

(** X6.  Whatever the services answer and whatever the player does from the
    initial state, the current level stays within 1..10 (the next-level
    button never leads beyond level 10), and a game or a result is never on
    screen without a player id: the id can only be edited in the lobby and
    nothing starts while it is empty. *)
Theorem level_in_range_and_player_known
  (sheetsService : SheetsService) (ai : GenAI) (js : Runtime)
  (trace : list (Z * Event)) :
  let a := react (run sheetsService ai js initialStore trace) in
  1 <= currentLevel a <= 10
  /\ (gameState a = PLAYING \/ gameState a = RESULT ->
      playerId a <> EmptyString).
Proof.
  intros a.
  assert (H : levelInv a).
  { apply levelInv_run. unfold levelInv; cbn. split; [lia | congruence]. }
  destruct H as [Hl Hp]. split; [exact Hl |].
  intros Hg Hid.
  assert (Hne : nonEmpty (playerId a) = true)
    by (apply Hp; destruct Hg as [-> | ->]; discriminate).
  rewrite Hid in Hne. discriminate.
Qed.

(** ** The review table: each answer finds its question *)

Lemma find_by_id ws : forall k i w,
  map id ws = seq k (List.length ws) ->
  nth_error ws i = Some w ->
  find (fun w' => id w' =? k + i) ws = Some w /\ id w = k + i.
Proof.
  induction ws as [|x rest IH]; intros k i w Hids Hn.
  - destruct i; discriminate.
  - cbn in Hids. injection Hids as Hx Hrest.
    destruct i as [|i]; cbn in Hn |- *.
    + injection Hn as <-. rewrite Hx, Nat.add_0_r, Nat.eqb_refl. now split.
    + rewrite Hx.
      destruct (Nat.eqb_spec k (k + S i)) as [He | _]; [lia |].
      replace (k + S i) with (S k + i) by lia.
      now apply IH.
Qed.

Lemma preparedFrom_correctAnswer ai js now t l : forall idx,
  Forall (fun w => correctAnswer w = translation w)
         (preparedFrom ai js now t idx l).
Proof.
  induction l; intros idx; cbn; constructor; auto.
Qed.

Lemma reviewInv_loaded ai js a now t raws :
  reviewInv (loaded a (preparedFrom ai js now t 0 (firstn 50 raws)) t).
Proof.
  unfold reviewInv, loaded; cbn [words userAnswers].
  split; [now rewrite preparedFrom_ids, preparedFrom_length |].
  split; [apply preparedFrom_correctAnswer |].
  split; [rewrite preparedFrom_length, length_firstn; lia |].
  intros i ans H. destruct i; discriminate.
Qed.

Section Review.

Variable sheetId : string.
Variable ai : GenAI.
Variable js : Runtime.

Lemma reviewInv_startLevel level s :
  reviewInv (react s) ->
  reviewInv
    (react (fst (startLevel (GoogleSheetsService sheetId) ai js level s))).
Proof.
  intros H.
  destruct (startLevel_run (GoogleSheetsService sheetId) ai js level s)
    as (lines & -> & _).
  cbn [fst react]. unfold startedState.
  destruct (rawWordsOf _ _ _ _); [apply reviewInv_loaded | exact H].
Qed.

Lemma reviewInv_dispatch t ev s :
  sessionInv (react s) -> reviewInv (react s) ->
  reviewInv
    (react (fst (dispatch (GoogleSheetsService sheetId) ai js t ev s))).
Proof.
  intros Hsess H. unfold dispatch.
  destruct (enabled (react s) ev) eqn:Hen; [| exact H].
  destruct ev; cbn [handler].
  - exact H.
  - unfold bind; cbn [setCurrentLevel setState].
    apply reviewInv_startLevel. exact H.
  - apply reviewInv_startLevel. exact H.
  - destruct (enabled_option_word _ _ Hen) as (w & Hw & _).
    pose proof (enabled_option_playing _ _ Hen) as Hplay.
    destruct (handleAnswer_frame (GoogleSheetsService sheetId) (react s)
                option w
                {| react := react s; console := console s; clock := t |}
                Hw) as (_ & _ & Hws & _ & _ & Hans & _).
    cbn [react] in Hws, Hans.
    destruct H as (Hids & Hcorr & Hlen & Hmatch).
    destruct Hsess as (_ & _ & _ & Hp & _). specialize (Hp Hplay).
    unfold reviewInv. rewrite Hws, Hans.
    split; [exact Hids |]. split; [exact Hcorr |]. split; [exact Hlen |].
    intros i ans Hi.
    destruct (Nat.lt_ge_cases i (List.length (userAnswers (react s))))
      as [Hlt | Hge].
    + rewrite nth_error_app1 in Hi by exact Hlt. now apply Hmatch.
    + rewrite nth_error_app2 in Hi by exact Hge.
      destruct (i - List.length (userAnswers (react s))) as [|j] eqn:Hj;
        [| destruct j; discriminate].
      cbn in Hi. injection Hi as <-.
      assert (Hi' : i = currentIndex (react s)) by lia. subst i.
      exists w. split; [exact Hw |].
      destruct (find_by_id _ 0 _ _ Hids Hw) as [_ Hid].
      cbn [answerEntry wordId isCorrect selected].
      split; [exact Hid |].
      rewrite Forall_forall in Hcorr.
      now rewrite (Hcorr w (nth_error_In _ _ Hw)).
  - exact H.
  - apply reviewInv_startLevel. exact H.
  - unfold bind; cbn [setCurrentLevel setState].
    apply reviewInv_startLevel. exact H.
Qed.

Lemma reviewInv_run trace : forall s,
  sessionInv (react s) -> reviewInv (react s) ->
  sessionInv (react (run (GoogleSheetsService sheetId) ai js s trace))
  /\ reviewInv (react (run (GoogleSheetsService sheetId) ai js s trace)).
Proof.
  induction trace as [|[t ev] rest IH]; intros s Hs Hr; [now split |].
  cbn [run fold_left]. apply IH.
  - now apply sessionInv_dispatch.
  - now apply reviewInv_dispatch.
Qed.

End Review.

Lemma reviewInv_initial : reviewInv initialState.
Proof.
  unfold reviewInv; cbn. repeat split; try constructor; try lia.
  intros i ans H. destruct i; discriminate.
Qed.

(** X7.  In every state the player can reach (with the sheets service of
    the repository), the answers are recorded one per question and in the
    order of the questions: the [i]-th answer carries the id [i] of the
    [i]-th word, the lookup of the review table
    ([words.find(w => w.id === ans.wordId)]) finds exactly that word, never
    nothing and never another one, and the answer is marked correct if and
    only if the chosen option is that word's translation. *)
Theorem review_finds_the_question_asked
  (sheetId : string) (ai : GenAI) (js : Runtime)
  (trace : list (Z * Event)) (i : nat) (ans : UserAnswer) :
  let a := react (run (GoogleSheetsService sheetId) ai js initialStore trace)
  in
  nth_error (userAnswers a) i = Some ans ->
  exists w,
    nth_error (words a) i = Some w
    /\ renderResult_word a ans = Some w
    /\ wordId ans = i /\ id w = i
    /\ (isCorrect ans = true <-> selected ans = translation w).
Proof.
  intros a Hi.
  destruct (reviewInv_run sheetId ai js trace initialStore
              sessionInv_initial reviewInv_initial)
    as [_ (Hids & _ & _ & Hmatch)].
  fold a in Hids, Hmatch.
  destruct (Hmatch i ans Hi) as (w & Hw & Hid & Hc).
  exists w. split; [exact Hw |].
  destruct (find_by_id _ 0 _ _ Hids Hw) as [Hfind Hidw].
  unfold renderResult_word. rewrite Hid.
  split; [exact Hfind |]. split; [reflexivity |]. split; [exact Hidw |].
  rewrite Hc. apply String.eqb_eq.
Qed.

Lemma review_finds_the_question_asked_witness :
  nth_error
    (userAnswers
       (react (run (GoogleSheetsService EmptyString) offlineAI demoRuntime
                   initialStore (play ("错误选项1" :: tl level1Answers)))))
    0
  = Some (mkAnswer 0 "错误选项1" false)
  /\ exists w,
       nth_error
         (words
            (react (run (GoogleSheetsService EmptyString) offlineAI
                        demoRuntime initialStore
                        (play ("错误选项1" :: tl level1Answers)))))
         0
       = Some w
       /\ renderResult_word
            (react (run (GoogleSheetsService EmptyString) offlineAI
                        demoRuntime initialStore
                        (play ("错误选项1" :: tl level1Answers))))
            (mkAnswer 0 "错误选项1" false)
          = Some w
       /\ wordId (mkAnswer 0 "错误选项1" false) = 0 /\ id w = 0
       /\ (isCorrect (mkAnswer 0 "错误选项1" false) = true <->
           selected (mkAnswer 0 "错误选项1" false) = translation w).
Proof.
  assert (Hans :
    nth_error
      (userAnswers
         (react (run (GoogleSheetsService EmptyString) offlineAI demoRuntime
                     initialStore (play ("错误选项1" :: tl level1Answers)))))
      0
    = Some (mkAnswer 0 "错误选项1" false))
    by (vm_compute; reflexivity).
  split; [exact Hans |].
  exact (review_finds_the_question_asked EmptyString offlineAI demoRuntime
           (play ("错误选项1" :: tl level1Answers)) 0
           (mkAnswer 0 "错误选项1" false) Hans).
Defined.

(** ** The records that reach the sink *)

Lemma savedRecords_app l1 l2 :
  savedRecords (l1 ++ l2) = savedRecords l1 ++ savedRecords l2.
Proof. apply flat_map_app. Qed.

Lemma quiet_ret {A} (a : A) : quiet (ret a).
Proof. intros s. reflexivity. Qed.

Lemma quiet_setState f : quiet (setState f).
Proof. intros s. reflexivity. Qed.

Lemma quiet_Date_now : quiet Date_now.
Proof. intros s. reflexivity. Qed.

Lemma quiet_liftResult {A} (r : Result A) : quiet (liftResult r).
Proof. intros s. reflexivity. Qed.

Lemma quiet_warn msg : quiet (console_emit (ConsoleWarn msg)).
Proof.
  intros s. cbn. rewrite savedRecords_app. cbn. apply app_nil_r.
Qed.

Lemma quiet_error msg e : quiet (console_emit (ConsoleError msg e)).
Proof.
  intros s. cbn. rewrite savedRecords_app. cbn. apply app_nil_r.
Qed.

Lemma quiet_call {A} (c : Service A) :
  (forall t, savedRecords (fst (c t)) = []) -> quiet (call c).
Proof.
  intros H s. cbn. rewrite savedRecords_app, H. apply app_nil_r.
Qed.

Lemma quiet_bind {A B} (m : M A) (k : A -> M B) :
  quiet m -> (forall a, quiet (k a)) -> quiet (bind m k).
Proof.
  intros Hm Hk s. unfold bind. specialize (Hm s).
  destruct (m s) as [s1 [a | e]]; cbn [fst] in *; [| exact Hm].
  now rewrite Hk.
Qed.

Lemma quiet_try_catch {A} (body : M A) handler :
  quiet body -> (forall e, quiet (handler e)) -> quiet (try_catch body handler).
Proof.
  intros Hb Hh s. unfold try_catch. specialize (Hb s).
  destruct (body s) as [s1 [a | e]]; cbn [fst] in *; [exact Hb |].
  now rewrite Hh.
Qed.

Lemma quiet_try_finally {A} (body : M A) fin :
  quiet body -> quiet fin -> quiet (try_finally body fin).
Proof.
  intros Hb Hf s. unfold try_finally. specialize (Hb s).
  destruct (body s) as [s1 r]; cbn [fst] in Hb. specialize (Hf s1).
  destruct (fin s1) as [s2 [[] | e]]; cbn [fst] in *; congruence.
Qed.

Create HintDb quiet.
#[local] Hint Resolve quiet_ret quiet_setState quiet_Date_now
  quiet_liftResult quiet_warn quiet_error quiet_bind quiet_try_catch
  quiet_try_finally : quiet.

Lemma quiet_generateDistractors ai word translation :
  quiet (generateDistractors ai word translation).
Proof.
  unfold generateDistractors. auto 10 with quiet.
Qed.

Lemma quiet_prepareFrom ai js t l : forall idx,
  quiet (prepareFrom ai js t idx l).
Proof.
  induction l as [|w rest IH]; intros idx; cbn [prepareFrom].
  - apply quiet_ret.
  - unfold prepareWord.
    repeat (apply quiet_bind; [| intros ?]);
      auto using quiet_generateDistractors with quiet.
Qed.

Lemma quiet_startLevel sheetId ai js level :
  quiet (startLevel (GoogleSheetsService sheetId) ai js level).
Proof.
  unfold startLevel, loadLevel, fetchRawWords, prepareWords,
    generateLevelWords, setIsLoading, setWords, setCurrentIndex,
    setUserAnswers, setStartTime, setGameState.
  apply quiet_bind; [apply quiet_setState | intros _].
  apply quiet_try_finally; [| apply quiet_setState].
  apply quiet_try_catch; [| intros e; apply quiet_error].
  apply quiet_bind.
  - apply quiet_bind.
    + apply quiet_call. intros t. cbn.
      destruct (String.length sheetId =? 0); reflexivity.
    + intros rawWords. destruct (List.length rawWords =? 0);
        [| apply quiet_ret].
      destruct (MOCK_WORDS level); auto 10 with quiet.
  - intros rawWords. apply quiet_bind.
    + apply quiet_bind; [apply quiet_Date_now | intros t].
      apply quiet_prepareFrom.
    + intros prepared. auto 20 with quiet.
Qed.

Lemma dispatch_savedRecords
  (sheetId : string) (ai : GenAI) (js : Runtime) (t : Z) (ev : Event)
  (s : Store) :
  savedRecords
    (console (fst (dispatch (GoogleSheetsService sheetId) ai js t ev s)))
  = savedRecords (console s)
    ++ (if completes (react s) ev then [finishLevel_record (react s) t]
        else []).
Proof.
  unfold dispatch.
  destruct (enabled (react s) ev) eqn:Hen.
  2:{ cbn [fst].
      replace (completes (react s) ev) with false;
        [now rewrite app_nil_r |].
      destruct ev; cbn [completes]; try reflexivity. now rewrite Hen. }
  set (s0 := {| react := react s; console := console s; clock := t |}).
  assert (Hstart : forall level f,
            savedRecords
              (console
                 (fst (bind (setCurrentLevel f)
                         (fun _ => startLevel (GoogleSheetsService sheetId)
                                     ai js level) s0)))
            = savedRecords (console s) ++ []).
  { intros level f. rewrite app_nil_r.
    apply (quiet_bind _ _ (quiet_setState _)
             (fun _ => quiet_startLevel sheetId ai js level) s0). }
  destruct ev; cbn [completes handler].
  - now rewrite app_nil_r.
  - apply Hstart.
  - rewrite app_nil_r. apply (quiet_startLevel sheetId ai js _ s0).
  - rewrite Hen. cbn [andb].
    destruct (enabled_option_word _ _ Hen) as (w & Hw & _).
    rewrite (handleAnswer_run _ _ _ w _ Hw).
    destruct (currentIndex (react s) + 1 <? List.length (words (react s)));
      cbn [negb]; [cbn; now rewrite app_nil_r |].
    rewrite finishLevel_run. cbn [fst console withStore clock s0].
    rewrite savedRecords_app. reflexivity.
  - now rewrite app_nil_r.
  - rewrite app_nil_r. apply (quiet_startLevel sheetId ai js _ s0).
  - apply Hstart.
Qed.

(** X8.  With the sheets service of the repository exactly one record is
    saved per completed session, at the answer that completes it, and none
    at any other moment: not when a level is loaded or fails to load, not
    for an answer in the middle of a session, not for a session that is
    abandoned.  The records in the console after a trace are those it held
    before followed by one record per completing answer, in order, each the
    one [finishLevel] builds from the render in which that answer was
    clicked. *)
Theorem one_record_per_completed_session
  (sheetId : string) (ai : GenAI) (js : Runtime)
  (trace : list (Z * Event)) (s : Store) :
  savedRecords
    (console (run (GoogleSheetsService sheetId) ai js s trace))
  = savedRecords (console s)
    ++ completedRecords (GoogleSheetsService sheetId) ai js s trace.
Proof.
  revert s. induction trace as [|[t ev] rest IH]; intros s.
  - cbn. now rewrite app_nil_r.
  - cbn [run fold_left completedRecords fst snd].
    change (fold_left (step (GoogleSheetsService sheetId) ai js) rest
              (step (GoogleSheetsService sheetId) ai js s (t, ev)))
      with (run (GoogleSheetsService sheetId) ai js
              (step (GoogleSheetsService sheetId) ai js s (t, ev)) rest).
    rewrite IH. unfold step at 1. cbn [fst snd].
    rewrite dispatch_savedRecords. now rewrite app_assoc.
Qed.

Lemma correctCountOf_le answers :
  correctCountOf answers <= List.length answers.
Proof. apply filter_length_le. Qed.

Lemma recordOK_at_completion s ev t :
  storeInv s -> completes (react s) ev = true ->
  recordOK (finishLevel_record (react s) t)
  /\ List.length (userAnswers (react s)) + 1 = List.length (words (react s)).
Proof.
  intros (Hsess & Hrev & Hlev) Hc.
  destruct ev; try discriminate. cbn [completes] in Hc.
  apply andb_prop in Hc as [Hen Hlast].
  apply negb_true_iff, Nat.ltb_ge in Hlast.
  destruct (enabled_option_word _ _ Hen) as (w & Hw & _).
  pose proof (enabled_option_playing _ _ Hen) as Hplay.
  assert (Hlt : currentIndex (react s) < List.length (words (react s)))
    by (apply nth_error_Some; congruence).
  destruct Hsess as (_ & _ & _ & Hp & _). specialize (Hp Hplay).
  destruct Hrev as (_ & _ & H50 & _).
  destruct Hlev as [Hl Hid].
  split; [| lia].
  unfold recordOK, finishLevel_record, finishLevel_correctCount.
  cbn [rec_playerId maxLevel totalWords rec_correctCount].
  split.
  - intros He.
    assert (Hne : nonEmpty (playerId (react s)) = true)
      by (apply Hid; congruence).
    rewrite He in Hne. discriminate.
  - split; [exact Hl |]. split; [lia |].
    pose proof (correctCountOf_le (userAnswers (react s))). lia.
Qed.

Section Reachable.

Variable sheetId : string.
Variable ai : GenAI.
Variable js : Runtime.

Lemma storeInv_step tev s :
  storeInv s -> storeInv (step (GoogleSheetsService sheetId) ai js s tev).
Proof.
  intros (Hsess & Hrev & Hlev). destruct tev as [t ev].
  unfold step, storeInv. cbn [fst snd].
  split; [now apply sessionInv_dispatch |].
  split; [now apply reviewInv_dispatch | now apply levelInv_dispatch].
Qed.

Lemma storeInv_run trace : forall s,
  storeInv s -> storeInv (run (GoogleSheetsService sheetId) ai js s trace).
Proof.
  induction trace as [|tev rest IH]; intros s Hs; [exact Hs |].
  cbn [run fold_left]. apply IH. now apply storeInv_step.
Qed.

Lemma savedRecords_OK_run trace : forall s,
  storeInv s -> Forall recordOK (savedRecords (console s)) ->
  Forall recordOK
         (savedRecords
            (console (run (GoogleSheetsService sheetId) ai js s trace))).
Proof.
  induction trace as [|[t ev] rest IH]; intros s Hs Hr; [exact Hr |].
  cbn [run fold_left]. apply IH; [now apply storeInv_step |].
  unfold step. cbn [fst snd]. rewrite dispatch_savedRecords.
  apply Forall_app. split; [exact Hr |].
  destruct (completes (react s) ev) eqn:Hc; [| constructor].
  constructor; [| constructor].
  exact (proj1 (recordOK_at_completion s ev t Hs Hc)).
Qed.

End Reachable.

Lemma storeInv_initial : storeInv initialStore.
Proof.
  split; [apply sessionInv_initial |]. split; [apply reviewInv_initial |].
  unfold levelInv; cbn. split; [lia | congruence].
Qed.

(** X9.  Every record the game ever saves (with the sheets service of the
    repository, whatever the model and the player do) names a player, a
    level from 1 to 10 and between 1 and 50 words, and reports fewer
    correct answers than words: since the last answer is not counted, no
    record reports a session with every answer right. *)
Theorem saved_records_are_bounded
  (sheetId : string) (ai : GenAI) (js : Runtime)
  (trace : list (Z * Event)) :
  Forall recordOK
         (savedRecords
            (console (run (GoogleSheetsService sheetId) ai js initialStore
                          trace))).
Proof.
  apply savedRecords_OK_run; [apply storeInv_initial | constructor].
Qed.

(** ** The time span of a record *)

Section Timed.

Variable sheetId : string.
Variable ai : GenAI.
Variable js : Runtime.

(** A session on screen started no later than the last event. *)
Lemma dispatch_startTime t ev s :
  (gameState (react s) = PLAYING -> (startTime (react s) <= t)%Z) ->
  gameState
    (react (fst (dispatch (GoogleSheetsService sheetId) ai js t ev s)))
  = PLAYING ->
  (startTime
     (react (fst (dispatch (GoogleSheetsService sheetId) ai js t ev s)))
   <= t)%Z.
Proof.
  intros Hbefore. unfold dispatch.
  destruct (enabled (react s) ev) eqn:Hen; [| exact Hbefore].
  assert (Hstart : forall level a0,
            gameState a0 = gameState (react s) ->
            startTime a0 = startTime (react s) ->
            gameState
              (react (fst (startLevel (GoogleSheetsService sheetId) ai js
                             level
                             {| react := a0; console := console s;
                                clock := t |})))
            = PLAYING ->
            (startTime
               (react (fst (startLevel (GoogleSheetsService sheetId) ai js
                              level
                              {| react := a0; console := console s;
                                 clock := t |})))
             <= t)%Z).
  { intros level a0 Hg Ht.
    destruct (startLevel_run (GoogleSheetsService sheetId) ai js level
                {| react := a0; console := console s; clock := t |})
      as (lines & -> & _).
    cbn [fst react clock]. unfold startedState.
    destruct (rawWordsOf _ _ _ _); cbn; [lia |].
    rewrite Hg, Ht. exact Hbefore. }
  destruct ev; cbn [handler].
  - cbn. exact Hbefore.
  - unfold bind; cbn [setCurrentLevel setState react console clock].
    now apply Hstart.
  - now apply Hstart.
  - destruct (enabled_option_word _ _ Hen) as (w & Hw & _).
    pose proof (enabled_option_playing _ _ Hen) as Hplay.
    destruct (handleAnswer_frame (GoogleSheetsService sheetId) (react s)
                option w
                {| react := react s; console := console s; clock := t |}
                Hw) as (_ & _ & _ & Ht & _).
    cbn [react] in Ht. rewrite Ht. intros _. now apply Hbefore.
  - cbn. discriminate.
  - now apply Hstart.
  - unfold bind; cbn [setCurrentLevel setState react console clock].
    now apply Hstart.
Qed.

Lemma savedRecords_timed_run trace : forall s from,
  (gameState (react s) = PLAYING -> (startTime (react s) <= from)%Z) ->
  Forall recordTimed (savedRecords (console s)) ->
  chronological from trace = true ->
  Forall recordTimed
         (savedRecords
            (console (run (GoogleSheetsService sheetId) ai js s trace))).
Proof.
  induction trace as [|[t ev] rest IH]; intros s from Hst Hr Hch;
    [exact Hr |].
  cbn [chronological] in Hch. apply andb_prop in Hch as [Hle Hch].
  apply Z.leb_le in Hle.
  cbn [run fold_left]. apply (IH _ t); [| | exact Hch].
  - unfold step. cbn [fst snd]. apply dispatch_startTime.
    intros Hg. specialize (Hst Hg). lia.
  - unfold step. cbn [fst snd]. rewrite dispatch_savedRecords.
    apply Forall_app. split; [exact Hr |].
    destruct (completes (react s) ev) eqn:Hc; [| constructor].
    constructor; [| constructor].
    destruct ev; try discriminate. cbn [completes] in Hc.
    apply andb_prop in Hc as [Hen _].
    pose proof (enabled_option_playing _ _ Hen) as Hplay.
    specialize (Hst Hplay).
    unfold recordTimed, finishLevel_record.
    cbn [rec_startTime rec_endTime duration]. split; [lia | reflexivity].
Qed.

End Timed.

Lemma causal_chronological trace : forall from,
  causal from trace = true -> chronological from (readings trace) = true.
Proof.
  induction trace as [|e rest IH]; intros from H; [reflexivity |].
  cbn [causal] in H.
  apply andb_prop in H as [H Hrest]. apply andb_prop in H as [H1 H2].
  apply Z.leb_le in H1. apply Z.leb_le in H2.
  cbn [readings map chronological].
  apply andb_true_intro. split; [apply Z.leb_le; lia |].
  apply IH, Hrest.
Qed.

(** X10.  A control is operated at one time and its handler reads
    [Date.now()] at another: at once for an answer, after the words have
    arrived and been prepared for a start.  If the clock does not run
    backwards (each reading is no earlier than its click and no later than
    the next click), every record the game saves, with the sheets service
    of the repository, spans a non-negative time: its start is the reading
    taken when the level had loaded, its end the reading taken at the
    completing answer, start <= end, and its duration field is
    [formatDuration] of their difference. *)
Theorem saved_records_span_forward
  (sheetId : string) (ai : GenAI) (js : Runtime) (from : Z)
  (trace : list TimedEvent) :
  causal from trace = true ->
  Forall recordTimed
         (savedRecords
            (console (run (GoogleSheetsService sheetId) ai js initialStore
                          (readings trace)))).
Proof.
  intros Hc.
  apply (savedRecords_timed_run sheetId ai js (readings trace) initialStore
           from);
    [discriminate | constructor | apply causal_chronological, Hc].
Qed.

Lemma saved_records_span_forward_witness :
  causal 0 slowStartTrace = true
  /\ map (fun r => (rec_startTime r, rec_endTime r, duration r))
         (savedRecords
            (console (run (GoogleSheetsService EmptyString) offlineAI
                          demoRuntime initialStore
                          (readings slowStartTrace))))
     = [(5000%Z, 62000%Z, "0:57"%string)]
  /\ Forall recordTimed
            (savedRecords
               (console (run (GoogleSheetsService EmptyString) offlineAI
                             demoRuntime initialStore
                             (readings slowStartTrace)))).
Proof.
  assert (Hc : causal 0 slowStartTrace = true)
    by (vm_compute; reflexivity).
  split; [exact Hc |].
  split; [vm_compute; reflexivity |].
  exact (saved_records_span_forward EmptyString offlineAI demoRuntime 0
           slowStartTrace Hc).
Defined.

(** ** What it takes to unlock a level *)

(** X11.  In a state the player can reach (with the sheets service of the
    repository), an event unlocks the next level only if the session on
    screen has at least 10 questions and at least 90% of its questions were
    answered correctly before the last one: the answers counted are the
    [len(words) - 1] earlier ones, so a level of fewer than ten words can
    never be cleared, whatever the player answers. *)
Theorem unlocking_needs_ten_questions
  (sheetId : string) (ai : GenAI) (js : Runtime)
  (trace : list (Z * Event)) (t : Z) (ev : Event) :
  let s := run (GoogleSheetsService sheetId) ai js initialStore trace in
  unlockedLevel
    (react (fst (dispatch (GoogleSheetsService sheetId) ai js t ev s)))
  = unlockedLevel (react s) + 1 ->
  10 <= List.length (words (react s))
  /\ List.length (userAnswers (react s)) + 1 = List.length (words (react s))
  /\ 9 * List.length (words (react s))
     <= 10 * correctCountOf (userAnswers (react s)).
Proof.
  intros s Hup.
  assert (Hinv : storeInv s) by (apply storeInv_run, storeInv_initial).
  rewrite dispatch_unlockedLevel in Hup.
  destruct (completes (react s) ev) eqn:Hc; cbn [andb] in Hup; [| lia].
  destruct (advances (react s)) eqn:Ha; [| lia].
  apply advances_spec in Ha as (Hp & _ & _).
  destruct (recordOK_at_completion s ev t Hinv Hc)
    as [(_ & _ & [H1 H50] & _) Hlen].
  cbn [totalWords finishLevel_record] in H1, H50.
  pose proof (correctCountOf_le (userAnswers (react s))) as Hle.
  unfold finishLevel_passed, finishLevel_accuracy, finishLevel_correctCount
    in Hp.
  apply passed_iff_ratio in Hp; [| lia | lia].
  lia.
Qed.

Lemma unlocking_needs_ten_questions_witness :
  unlockedLevel
    (react (fst (dispatch (GoogleSheetsService EmptyString) offlineAI
                   demoRuntime 62000 (ClickOption "账户；解释")
                   (run (GoogleSheetsService EmptyString) offlineAI
                        demoRuntime initialStore
                        (play (firstn 9 level1Answers))))))
  = unlockedLevel
      (react (run (GoogleSheetsService EmptyString) offlineAI demoRuntime
                  initialStore (play (firstn 9 level1Answers)))) + 1
  /\ 10 <= List.length
             (words
                (react (run (GoogleSheetsService EmptyString) offlineAI
                            demoRuntime initialStore
                            (play (firstn 9 level1Answers))))).
Proof.
  assert (Hup :
    unlockedLevel
      (react (fst (dispatch (GoogleSheetsService EmptyString) offlineAI
                     demoRuntime 62000 (ClickOption "账户；解释")
                     (run (GoogleSheetsService EmptyString) offlineAI
                          demoRuntime initialStore
                          (play (firstn 9 level1Answers))))))
    = unlockedLevel
        (react (run (GoogleSheetsService EmptyString) offlineAI demoRuntime
                    initialStore (play (firstn 9 level1Answers)))) + 1)
    by (vm_compute; reflexivity).
  split; [exact Hup |].
  exact (proj1 (unlocking_needs_ten_questions EmptyString offlineAI
                  demoRuntime (play (firstn 9 level1Answers)) 62000
                  (ClickOption "账户；解释") Hup)).
Defined.

(** X12.  The option clicked on the last question of a session decides
    nothing but its own entry in the answer list: for any two options of
    that question, the resulting states agree on every cell except
    [userAnswers] (so on the game state and on [unlockedLevel]), the console
    receives the same lines (the same record is saved), and the call settles
    the same way. *)
Theorem last_answer_does_not_count
  (sheetsService : SheetsService) (ai : GenAI) (js : Runtime) (t : Z)
  (option1 option2 : string) (s : Store) :
  completes (react s) (ClickOption option1) = true ->
  completes (react s) (ClickOption option2) = true ->
  with_userAnswers []
    (react (fst (dispatch sheetsService ai js t (ClickOption option1) s)))
  = with_userAnswers []
      (react (fst (dispatch sheetsService ai js t (ClickOption option2) s)))
  /\ console (fst (dispatch sheetsService ai js t (ClickOption option1) s))
     = console (fst (dispatch sheetsService ai js t (ClickOption option2) s))
  /\ snd (dispatch sheetsService ai js t (ClickOption option1) s)
     = snd (dispatch sheetsService ai js t (ClickOption option2) s).
Proof.
  intros H1 H2. cbn [completes] in H1, H2.
  apply andb_prop in H1 as [Hen1 Hlast]. apply andb_prop in H2 as [Hen2 _].
  apply negb_true_iff in Hlast.
  destruct (enabled_option_word _ _ Hen1) as (w & Hw & _).
  unfold dispatch. rewrite Hen1, Hen2. cbn [handler].
  rewrite !(handleAnswer_run _ _ _ w _ Hw), Hlast, !finishLevel_run.
  cbn [fst snd react console withStore clock].
  split; [| split; reflexivity].
  destruct (saveOutcome sheetsService (react s) t); unfold unlockNext;
    destruct (advances (react s)); reflexivity.
Qed.

Lemma last_answer_does_not_count_witness :
  completes (react nineRight) (ClickOption "账户；解释") = true
  /\ completes (react nineRight) (ClickOption "错误选项1") = true
  /\ unlockedLevel
       (with_userAnswers []
          (react (fst (dispatch demoService offlineAI demoRuntime 62000
                         (ClickOption "账户；解释") nineRight))))
     = unlockedLevel
         (with_userAnswers []
            (react (fst (dispatch demoService offlineAI demoRuntime 62000
                           (ClickOption "错误选项1") nineRight)))).
Proof.
  assert (H1 : completes (react nineRight) (ClickOption "账户；解释") = true)
    by (vm_compute; reflexivity).
  assert (H2 : completes (react nineRight) (ClickOption "错误选项1") = true)
    by (vm_compute; reflexivity).
  split; [exact H1 |]. split; [exact H2 |].
  destruct (last_answer_does_not_count demoService offlineAI demoRuntime
              62000 "账户；解释" "错误选项1" nineRight H1 H2) as [Heq _].
  now rewrite Heq.
Defined.

(** ** The accuracy as a number *)

Lemma accuracyRange_upto_50 :
  forallb (fun n => forallb (accuracyRangeOK n) (seq 0 (S n))) (seq 1 50)
  = true.
Proof. vm_compute. reflexivity. Qed.

Lemma accuracy_ends_upto_50 :
  forallb (fun n => PrimFloat.eqb (accuracyOf 0 n) 0%float
                    && PrimFloat.eqb (accuracyOf n n) 100%float)
          (seq 1 50)
  = true.
Proof. vm_compute. reflexivity. Qed.

(** X13.  For every session size the game can have (1 to 50 questions) the
    accuracy computed in binary64 by [finishLevel] and by the result screen
    is a percentage: it lies between 0 and 100, it is exactly 0 for no
    correct answer and exactly 100 when all are correct, and it is strictly
    higher for a higher number of correct answers; rounding never makes two
    different scores look the same or pushes one out of range. *)
Theorem accuracy_is_a_percentage (n c : nat) :
  1 <= n <= 50 -> c <= n ->
  PrimFloat.leb 0%float (accuracyOf c n) = true
  /\ PrimFloat.leb (accuracyOf c n) 100%float = true
  /\ PrimFloat.eqb (accuracyOf 0 n) 0%float = true
  /\ PrimFloat.eqb (accuracyOf n n) 100%float = true
  /\ (forall c', c < c' <= n ->
        PrimFloat.ltb (accuracyOf c n) (accuracyOf c' n) = true).
Proof.
  intros Hn Hc.
  pose proof accuracyRange_upto_50 as H. rewrite forallb_forall in H.
  assert (Hin : In n (seq 1 50)) by (apply in_seq; lia).
  specialize (H n Hin). rewrite forallb_forall in H.
  assert (Hic : In c (seq 0 (S n))) by (apply in_seq; lia).
  specialize (H c Hic). unfold accuracyRangeOK in H.
  apply andb_prop in H as [H Hmono]. apply andb_prop in H as [H0 H100].
  pose proof accuracy_ends_upto_50 as He. rewrite forallb_forall in He.
  specialize (He n Hin). apply andb_prop in He as [He0 He100].
  repeat (split; [assumption |]).
  intros c' Hc'. rewrite forallb_forall in Hmono.
  apply Hmono, in_seq. lia.
Qed.

Lemma accuracy_is_a_percentage_witness :
  PrimFloat.leb 0%float (accuracyOf 7 9) = true
  /\ PrimFloat.leb (accuracyOf 7 9) 100%float = true
  /\ PrimFloat.eqb (accuracyOf 0 9) 0%float = true
  /\ PrimFloat.eqb (accuracyOf 9 9) 100%float = true
  /\ (forall c', 7 < c' <= 9 ->
        PrimFloat.ltb (accuracyOf 7 9) (accuracyOf c' 9) = true).
Proof.
  apply (accuracy_is_a_percentage 9 7); lia.
Defined.

(** ** Every question can be answered correctly *)

Section Answerable.

Variable sheetsService : SheetsService.
Variable ai : GenAI.
Variable js : Runtime.
Hypothesis js_sort_permutes : sortPermutes js.

Lemma preparedFrom_answerable now t l : forall idx,
  Forall (fun w => In (correctAnswer w) (options w))
         (preparedFrom ai js now t idx l).
Proof.
  induction l as [|w rest IH]; intros idx; cbn [preparedFrom];
    constructor; [| apply IH].
  apply (Permutation_in _
           (preparedWord_options_permutation ai js now t idx w
              js_sort_permutes)).
  cbn [correctAnswer preparedWord]. unfold optionSet.
  apply in_or_app. right. now left.
Qed.

Lemma answerableInv_startLevel level s :
  Forall (fun w => In (correctAnswer w) (options w)) (words (react s)) ->
  answerableInv (react (fst (startLevel sheetsService ai js level s))).
Proof.
  intros H.
  destruct (startLevel_run sheetsService ai js level s) as (lines & -> & _).
  cbn [fst react]. unfold startedState, answerableInv.
  destruct (rawWordsOf _ _ _ _); cbn; split; try reflexivity;
    [apply preparedFrom_answerable | exact H].
Qed.

Lemma answerableInv_dispatch t ev s :
  answerableInv (react s) ->
  answerableInv (react (fst (dispatch sheetsService ai js t ev s))).
Proof.
  intros [Hl Hw]. unfold dispatch.
  destruct (enabled (react s) ev) eqn:Hen; [| now split].
  destruct ev; cbn [handler].
  - now split.
  - unfold bind; cbn [setCurrentLevel setState].
    now apply answerableInv_startLevel.
  - now apply answerableInv_startLevel.
  - destruct (enabled_option_word _ _ Hen) as (w & Hnth & _).
    destruct (handleAnswer_frame sheetsService (react s) option w
                {| react := react s; console := console s; clock := t |}
                Hnth) as (_ & _ & Hws & _ & Hload & _).
    cbn [react] in Hws, Hload.
    unfold answerableInv. now rewrite Hws, Hload.
  - now split.
  - now apply answerableInv_startLevel.
  - unfold bind; cbn [setCurrentLevel setState].
    now apply answerableInv_startLevel.
Qed.

Lemma answerableInv_run trace : forall s,
  answerableInv (react s) ->
  answerableInv (react (run sheetsService ai js s trace)).
Proof.
  induction trace as [|[t ev] rest IH]; intros s Hs; [exact Hs |].
  cbn [run fold_left]. apply IH. now apply answerableInv_dispatch.
Qed.

End Answerable.

(** X14.  As long as the engine's sort only rearranges, every question the
    player is ever shown can be answered correctly: in every state reached
    from the initial one, whatever the services answer, when the game is on
    screen the button of the current word's correct answer is there and
    enabled. *)
Theorem correct_answer_is_always_offered
  (sheetsService : SheetsService) (ai : GenAI) (js : Runtime)
  (trace : list (Z * Event)) (w : Word) :
  sortPermutes js ->
  let a := react (run sheetsService ai js initialStore trace) in
  gameState a = PLAYING ->
  nth_error (words a) (currentIndex a) = Some w ->
  enabled a (ClickOption (correctAnswer w)) = true.
Proof.
  intros Hjs a Hg Hw.
  assert (Hinv : answerableInv a).
  { apply answerableInv_run; [exact Hjs |].
    split; [reflexivity | constructor]. }
  destruct Hinv as [Hl Hall].
  cbn [enabled]. unfold shows. rewrite Hl, Hg, Hw. cbn [negb andb].
  apply existsb_exists. exists (correctAnswer w).
  split; [| apply String.eqb_refl].
  rewrite Forall_forall in Hall. apply Hall.
  eapply nth_error_In. exact Hw.
Qed.

Lemma correct_answer_is_always_offered_witness :
  gameState (react (run demoService offlineAI demoRuntime initialStore
                 (play (firstn 9 level1Answers)))) = PLAYING
  /\ nth_error (words (react (run demoService offlineAI demoRuntime initialStore
                 (play (firstn 9 level1Answers))))) (currentIndex (react (run demoService offlineAI demoRuntime initialStore
                 (play (firstn 9 level1Answers)))))
     = Some (preparedWord offlineAI demoRuntime 2000 2000 9
               (mkRaw "account" "账户；解释"))
  /\ enabled (react (run demoService offlineAI demoRuntime initialStore
                 (play (firstn 9 level1Answers))))
       (ClickOption
          (correctAnswer
             (preparedWord offlineAI demoRuntime 2000 2000 9
                (mkRaw "account" "账户；解释"))))
     = true.
Proof.
  assert (Hg : gameState (react (run demoService offlineAI demoRuntime initialStore
                 (play (firstn 9 level1Answers)))) = PLAYING)
    by (vm_compute; reflexivity).
  assert (Hw : nth_error (words (react (run demoService offlineAI demoRuntime initialStore
                 (play (firstn 9 level1Answers)))))
                 (currentIndex (react (run demoService offlineAI demoRuntime initialStore
                 (play (firstn 9 level1Answers)))))
               = Some (preparedWord offlineAI demoRuntime 2000 2000 9
                         (mkRaw "account" "账户；解释")))
    by (vm_compute; reflexivity).
  split; [exact Hg |]. split; [exact Hw |].
  exact (correct_answer_is_always_offered demoService offlineAI demoRuntime
           (play (firstn 9 level1Answers))
           (preparedWord offlineAI demoRuntime 2000 2000 9
              (mkRaw "account" "账户；解释"))
           (insertionSort_permutes _) Hg Hw).
Defined.
